(** * Price import / export service

    A shallow embedding of [main.go]: the two HTTP handlers
    ([handlePostPrices], [handleGetPrices]), the aggregator
    ([getInsertResult]) and the helpers ([readFileToBytes], [findCSV],
    [openCSVFromZip]).

    The relational store is a table of rows plus the serial counter of its
    [id] column; the database driver's failures are inputs of the model (a
    record of fault switches), so a handler is a function from the faults,
    the store and the request to a response and a new store.  Go's [int] is
    the 64-bit one.  Log lines are not modelled.

    [handlePostPrices] is the run over an entry whose stream ends with
    [io.EOF]; [handlePostPricesIn] is the same handler with its loop
    written over the calls of [Read], for a bounded number of turns: an
    entry whose stream breaks keeps that loop turning for ever. *)

From Stdlib Require Import String Ascii List ZArith QArith Lia Bool.
From Stdlib Require Import DecimalString DecimalPos Permutation Sorted.
Import ListNotations.

Local Open Scope string_scope.
Local Open Scope Z_scope.

(** ** The Go packages the handlers call *)

(** [strings]: Go strings are byte sequences, as [string] is here. *)
Module strings.

(** [len(s) >= len(suffix) && s[len(s)-len(suffix):] == suffix] *)
Definition HasSuffix (s suffix : string) : bool :=
  (String.length suffix <=? String.length s)%nat
  && String.eqb
       (substring (String.length s - String.length suffix)
                  (String.length suffix) s)
       suffix.

(** [Index(s, substr) >= 0]: [substr] starts at some position of [s]. *)
Fixpoint Contains (s substr : string) : bool :=
  prefix substr s
  || match s with
     | EmptyString => false
     | String _ s' => Contains s' substr
     end.

End strings.

(** [strconv]: integer conversions in base 10. *)
Module strconv.

Inductive NumError := ErrSyntax | ErrRange.

Definition maxUint64 : Z := 2 ^ 64 - 1.
Definition maxInt64 : Z := 2 ^ 63 - 1.
Definition minInt64 : Z := - 2 ^ 63.

Definition digit (c : ascii) : option Z :=
  let n := Z.of_nat (nat_of_ascii c) in
  if (48 <=? n) && (n <=? 57) then Some (n - 48) else None.

(** The digit loop of [ParseUint(s, 10, 64)]: a byte that is not a
    decimal digit is a syntax error (value 0); a value that leaves
    [uint64] is a range error (value [maxUint64]), reported as soon as
    it is met. *)
Fixpoint ParseUint_loop (s : string) (n : Z) : Z * option NumError :=
  match s with
  | EmptyString => (n, None)
  | String c s' =>
      match digit c with
      | None => (0, Some ErrSyntax)
      | Some d =>
          if maxUint64 / 10 + 1 <=? n then (maxUint64, Some ErrRange)
          else
            let n1 := n * 10 + d in
            if maxUint64 <? n1 then (maxUint64, Some ErrRange)
            else ParseUint_loop s' n1
      end
  end.

Definition ParseUint (s : string) : Z * option NumError :=
  match s with
  | EmptyString => (0, Some ErrSyntax)
  | _ => ParseUint_loop s 0
  end.

(** [ParseInt(s, 10, 0)]: an optional sign, then [ParseUint]; a syntax
    error gives 0, a value outside [int64] gives the nearest bound
    together with [ErrRange]. *)
Definition ParseInt (s : string) : Z * option NumError :=
  match s with
  | EmptyString => (0, Some ErrSyntax)
  | String c s' =>
      let neg := Ascii.eqb c "-" in
      let body := if Ascii.eqb c "+" || neg then s' else s in
      match ParseUint body with
      | (_, Some ErrSyntax) => (0, Some ErrSyntax)
      | (un, _) =>
          if negb neg && (maxInt64 + 1 <=? un) then (maxInt64, Some ErrRange)
          else if neg && (maxInt64 + 1 <? un) then (minInt64, Some ErrRange)
          else (if neg then - un else un, None)
      end
  end.

(** [Atoi(s)] is [ParseInt(s, 10, 0)] converted to [int]. *)
Definition Atoi (s : string) : Z * option NumError := ParseInt s.

(** [Itoa(i)]: the decimal numeral of [i], with [-] for a negative one. *)
Definition Itoa (i : Z) : string := NilZero.string_of_int (Z.to_int i).

End strconv.

(** [time]: a [time.Time] read with the layout ["2006-01-02"] is a
    calendar date at midnight UTC, and the [DATE] column keeps no more,
    so a [Time] is a calendar date here. *)
Module time.

Record Time := mkTime { Year : Z; Month : Z; Day : Z }.

(** [time.Time{}]: January 1, year 1. *)
Definition zero : Time := mkTime 1 1 1.

Definition isLeap (year : Z) : bool :=
  (year mod 4 =? 0) && (negb (year mod 100 =? 0) || (year mod 400 =? 0)).

Definition daysIn (m year : Z) : Z :=
  if m =? 2 then (if isLeap year then 29 else 28)
  else if (m =? 4) || (m =? 6) || (m =? 9) || (m =? 11) then 30
  else 31.

(** An unsigned numeral of exactly the digits given. *)
Fixpoint digits (s : string) (acc : Z) : option Z :=
  match s with
  | EmptyString => Some acc
  | String c s' =>
      match strconv.digit c with
      | Some d => digits s' (acc * 10 + d)
      | None => None
      end
  end.

(** [time.Parse("2006-01-02", value)]: four digits, [-], two digits,
    [-], two digits and nothing after them; the month is in 1..12 and
    the day exists in that month.  Every error returns [Time{}]. *)
Definition Parse (value : string) : Time * bool :=
  let bad := (zero, false) in
  if negb (String.length value =? 10)%nat then bad
  else
    match digits (substring 0 4 value) 0,
          digits (substring 5 2 value) 0,
          digits (substring 8 2 value) 0 with
    | Some y, Some m, Some d =>
        if String.eqb (substring 4 1 value) "-"
           && String.eqb (substring 7 1 value) "-"
           && (1 <=? m) && (m <=? 12)
           && (1 <=? d) && (d <=? daysIn m y)
        then (mkTime y m d, true)
        else bad
    | _, _, _ => bad
    end.

(** [appendInt(b, x, width)]: the decimal digits of [x], padded with
    zeros on the left up to [width], after [-] for a negative [x]. *)
Fixpoint zeros (n : nat) : string :=
  match n with O => "" | S n' => String "0" (zeros n') end.

Definition appendInt (x : Z) (width : nat) : string :=
  let ds := strconv.Itoa (Z.abs x) in
  (if x <? 0 then "-" else "")
    ++ zeros (width - String.length ds) ++ ds.

(** [t.Format("2006-01-02")] *)
Definition Format (t : Time) : string :=
  appendInt (Year t) 4 ++ "-" ++ appendInt (Month t) 2
    ++ "-" ++ appendInt (Day t) 2.

End time.

(** ** Data *)

Definition bytes := list Byte.byte.

(** A number as the driver and the store exchange it: a rational, or one
    of the three special values that both [float64] and [NUMERIC] have. *)
Inductive number := Finite (q : Q) | NaN | Inf (negative : bool).

Coercion Finite : Q >-> number.

(** A [float64] is named by the number that
    [strconv.FormatFloat(f, 'f', -1, 64)] prints for it, the shortest
    numeral that reads back as [f]: this is what the driver sends to the
    store for a [float64] argument.  Which numbers are such names is the
    library's business: [ParseFloat] and [Scan_float64] below return
    them. *)
Definition float64 := number.

(** A value of the [NUMERIC] column: an exact number, with no rounding. *)
Definition NUMERIC := number.

(** A number of at most 15 significant decimal digits and at most 15
    decimals: [q * 10^k] is an integer below [10^15] for some [k] in
    0..15.  Such a number is the name of a [float64]. *)
Definition short15 (q : Q) : bool :=
  let r := Qred q in
  existsb
    (fun k : nat =>
       (10 ^ Z.of_nat k mod Z.pos (Qden r) =? 0)
       && (Z.abs (Qnum r * (10 ^ Z.of_nat k / Z.pos (Qden r)))
           <? 10 ^ 15))
    (seq 0 16).


(** One entry of a [zip.Reader]: its name and what [Open] gives, the
    decompressed contents or an error. *)
Record zip_File := mkFile { Name : string; Open : option bytes }.

(** What one [csv.Reader.Read] returns before [io.EOF]: a record and an
    error ([ErrFieldCount] comes with the record, a parse error without). *)
Definition csv_Read : Type := list string * option string.

(** The calls of [Read] on a [csv.Reader], by their number from 0: the
    results [reads], and from then on [io.EOF], written [None], or the
    error [broken] the stream has stopped with, which the reader of the
    entry returns at every later call. *)
Definition reader_Read (reads : list csv_Read) (broken : option string)
    (n : nat) : option csv_Read :=
  match nth_error reads n with
  | Some x => Some x
  | None =>
      match broken with
      | Some err => Some ([], Some err)
      | None => None
      end
  end.

(** What writing a one-entry archive gives: [Create], [Write] and [Close]
    may each fail. *)
Inductive zip_Written :=
| CreateError | WriteError | CloseError | Archive (b : bytes).

(** The library functions that stay abstract: decoders and encoders of
    the archive and CSV formats, Unicode lower-casing and the conversions
    of floating point numbers.  [csv_NewReader] lists the results of the
    successive [Read] calls up to the end of the stream, which is
    [io.EOF] unless [csv_broken] gives an error: the error of a damaged
    entry (a checksum that does not match, a truncated stream), which
    [Read] returns again at every later call.  [Scan_float64] is the
    scan of a [NUMERIC] into a [float64]: the nearest [float64]. *)
Class Library := {
  ToLower : string -> string;
  zip_NewReader : bytes -> option (list zip_File);
  zip_NewWriter : string -> bytes -> zip_Written;
  csv_NewReader : bytes -> list csv_Read;
  csv_broken : bytes -> option string;
  csv_WriteAll : list (list string) -> option bytes;
  ParseFloat : string -> float64 * option strconv.NumError;
  Sprintf_2f : float64 -> string;
  Scan_float64 : NUMERIC -> float64;
  (** [ParseFloat] returns 0 with a syntax error. *)
  ParseFloat_syntax : forall s,
    snd (ParseFloat s) = Some strconv.ErrSyntax -> fst (ParseFloat s) = 0%Q;
  (** A number of at most 15 significant digits scans to the [float64]
      of that name. *)
  Scan_float64_short : forall q,
    short15 q = true -> Scan_float64 (Finite q) = Finite q
}.

(** [InsertResult] *)
Record InsertResult := mkInsertResult {
  TotalItems : Z;
  TotalCategories : Z;
  TotalPrice : float64
}.

(** A row of the table [prices].  The rows are written by the import,
    so a [price] is the number the driver sent for a [float64], and
    scanning it gives that [float64] back. *)
Record StoredPrice := mkStored {
  id : Z;
  product_id : Z;
  name : string;
  category : string;
  price : NUMERIC;
  create_date : time.Time
}.

(** The five arguments of the prepared [INSERT]. *)
Record PriceRecord := mkRecord {
  productID : Z;
  rname : string;
  rcategory : string;
  rprice : float64;
  rdate : time.Time
}.

(** The store: the committed rows of [prices], oldest first, and the last
    value its [SERIAL] column has handed out (a sequence is not rolled
    back). *)
Record DB := mkDB { prices : list StoredPrice; last_id : Z }.

(** An open transaction: the rows inserted so far, not yet visible, and
    the number of [ExecContext] calls made in it. *)
Record Tx := mkTx { pending : list StoredPrice; calls : nat }.

(** What can go wrong in the driver, as an input of the run.  The
    [n]-th [ExecContext] of a transaction (from 0) fails when
    [Exec_fails n rec]. *)
Record Faults := mkFaults {
  BeginTx_fails : bool;
  Prepare_fails : bool;
  Exec_fails : nat -> PriceRecord -> bool;
  Commit_fails : bool;
  CountQuery_fails : bool;
  SumQuery_fails : bool;
  Query_fails : bool;
  Scan_fails : StoredPrice -> bool;
  RowsErr : bool
}.

(** The calls that reach the store, in order. *)
Inductive DbOp :=
| OpBeginTx | OpPrepare | OpExec (rec : PriceRecord) | OpCommit | OpRollback
| OpQueryCount | OpQuerySum | OpQueryAll.

(** The upload as [net/http] presents it. *)
Record FileHeader := mkFileHeader {
  Filename : string;
  (** what [io.Copy] reads from the part, or a read error *)
  content : option bytes
}.

Record Request := mkRequest {
  Method : string;
  ContentType : string;
  (** [ParseMultipartForm]: the file parts by field name, or an error *)
  MultipartForm : option (list (string * FileHeader))
}.

Inductive Body :=
| Text (msg : string)
| JSON (res : InsertResult)
| Attachment (zip : bytes)
| Empty.

Record Response := mkResponse { Status : Z; body : Body }.

Definition StatusOK : Z := 200.
Definition StatusBadRequest : Z := 400.
Definition StatusMethodNotAllowed : Z := 405.
Definition StatusInternalServerError : Z := 500.

(** ** Running a handler *)

(** The state a handler threads: the store, the transaction it holds and
    the store calls made so far. *)
Record St := mkSt { db : DB; tx : option Tx; ops : list DbOp }.

(** A step either goes on with a value or has written the response and
    returned from the handler. *)
Definition M (A : Type) : Type := St -> (A + Response) * St.

Definition ret {A} (a : A) : M A := fun s => (inl a, s).

Definition bind {A B} (m : M A) (k : A -> M B) : M B :=
  fun s =>
    match m s with
    | (inl a, s') => k a s'
    | (inr r, s') => (inr r, s')
    end.

Notation "x <- m ;; k" := (bind m (fun x => k))
  (at level 61, m at next level, right associativity).

(** [http.Error(w, msg, code); return] *)
Definition http_Error {A} (msg : string) (code : Z) : M A :=
  fun s => (inr (mkResponse code (Text msg)), s).

Definition call (o : DbOp) : M unit :=
  fun s => (inl tt, mkSt (db s) (tx s) (ops s ++ [o])).

(** What a handler leaves: the response, the store and the store calls
    it made. *)
Record Outcome := mkOutcome {
  response : Response;
  store : DB;
  trace : list DbOp
}.

(** ** The handlers *)

Section Handlers.

Context {L : Library}.
Variable F : Faults.

(** *** The store, as [database/sql] drives it *)

(** [db.BeginTx]: [true] when a transaction is open. *)
Definition db_BeginTx : M bool :=
  _ <- call OpBeginTx ;;
  fun s =>
    if BeginTx_fails F then (inl false, s)
    else (inl true, mkSt (db s) (Some (mkTx [] 0)) (ops s)).

(** [tx.PrepareContext] of the [INSERT] statement. *)
Definition tx_Prepare : M bool :=
  _ <- call OpPrepare ;;
  ret (negb (Prepare_fails F)).

(** [stmt.ExecContext]: on success the row takes the next identifier
    and waits in the transaction. *)
Definition stmt_Exec (rec : PriceRecord) : M bool :=
  _ <- call (OpExec rec) ;;
  fun s =>
    match tx s with
    | None => (inl false, s)
    | Some t =>
        if Exec_fails F (calls t) rec
        then (inl false,
              mkSt (db s) (Some (mkTx (pending t) (S (calls t)))) (ops s))
        else
          let i := last_id (db s) + 1 in
          let row := mkStored i (productID rec) (rname rec)
                       (rcategory rec) (rprice rec) (rdate rec) in
          (inl true,
           mkSt (mkDB (prices (db s)) i)
                (Some (mkTx (pending t ++ [row]) (S (calls t))))
                (ops s))
    end.

(** [tx.Commit]: all the waiting rows become visible, or none does.
    Either way the transaction is over. *)
Definition tx_Commit : M bool :=
  _ <- call OpCommit ;;
  fun s =>
    match tx s with
    | None => (inl false, s)
    | Some t =>
        if Commit_fails F then (inl false, mkSt (db s) None (ops s))
        else
          (inl true,
           mkSt (mkDB (prices (db s) ++ pending t) (last_id (db s)))
                None (ops s))
    end.

(** [tx.Rollback]: drops the waiting rows of an open transaction; on a
    transaction that is over it returns [ErrTxDone] and does nothing. *)
Definition tx_Rollback (s : St) : St :=
  match tx s with
  | None => s
  | Some _ => mkSt (db s) None (ops s ++ [OpRollback])
  end.

(** [SELECT COUNT(DISTINCT category) FROM prices] *)
Definition sql_count_distinct (cs : list string) : Z :=
  Z.of_nat (List.length (nodup string_dec cs)).

(** The sum of two [NUMERIC] values: exact on rationals; [NaN] wins,
    and so do the infinities, opposite ones giving [NaN]. *)
Definition numeric_add (a b : NUMERIC) : NUMERIC :=
  match a, b with
  | NaN, _ | _, NaN => NaN
  | Inf s, Inf s' => if Bool.eqb s s' then Inf s else NaN
  | Inf s, Finite _ | Finite _, Inf s => Inf s
  | Finite x, Finite y => Finite (x + y)
  end.

(** [SUM(price)]: [NULL] over no rows. *)
Definition sql_SUM (ps : list NUMERIC) : option NUMERIC :=
  match ps with
  | [] => None
  | p :: ps' => Some (fold_left numeric_add ps' p)
  end.

Definition sql_COALESCE (v : option NUMERIC) (d : NUMERIC) : NUMERIC :=
  match v with Some q => q | None => d end.

Definition query_categories : M (option Z) :=
  _ <- call OpQueryCount ;;
  fun s =>
    if CountQuery_fails F then (inl None, s)
    else (inl (Some (sql_count_distinct (map category (prices (db s))))), s).

(** [SELECT COALESCE(SUM(price), 0) FROM prices], scanned into a
    [float64].  A sum the scan refuses (beyond the range of [float64])
    is a failure of the query, as [SumQuery_fails] has it. *)
Definition query_price : M (option float64) :=
  _ <- call OpQuerySum ;;
  fun s =>
    if SumQuery_fails F then (inl None, s)
    else
      (inl (Some (Scan_float64
                    (sql_COALESCE (sql_SUM (map price (prices (db s))))
                                  0%Q))),
       s).

(** *** [getInsertResult] *)
Definition getInsertResult (inserted : Z) : M (option InsertResult) :=
  totalCategories <- query_categories ;;
  match totalCategories with
  | None => ret None
  | Some totalCategories =>
      totalPrice <- query_price ;;
      match totalPrice with
      | None => ret None
      | Some totalPrice =>
          ret (Some (mkInsertResult inserted totalCategories totalPrice))
      end
  end.

(** *** [readFileToBytes] *)
Definition readFileToBytes (file : FileHeader) : option bytes :=
  content file.

(** *** [findCSV] *)
Fixpoint findCSV (files : list zip_File) : option zip_File :=
  match files with
  | [] => None
  | file :: rest =>
      if strings.HasSuffix (Name file) "data.csv" then Some file
      else findCSV rest
  end.

(** *** [openCSVFromZip] *)
Definition openCSVFromZip (file : zip_File) : option (list csv_Read) :=
  match Open file with
  | None => None
  | Some f => Some (csv_NewReader f)
  end.

(** [r.FormFile(key)]: the first file part of that field. *)
Fixpoint FormFile (form : list (string * FileHeader)) (key : string)
  : option FileHeader :=
  match form with
  | [] => None
  | (k, h) :: rest => if String.eqb k key then Some h else FormFile rest key
  end.

(** The typed arguments of the insert, from the columns 0, 1, 2, 4 and
    5 of a record; the conversion errors are dropped. *)
Definition recordArgs (record : list string) : PriceRecord :=
  let productID := fst (strconv.Atoi (nth 0 record "")) in
  let price := fst (ParseFloat (nth 4 record "")) in
  let date := fst (time.Parse (nth 5 record "")) in
  mkRecord productID (nth 1 record "") (nth 2 record "") price date.

(** The [for] loop of [handlePostPrices] over what is left of the
    reader; the end of the list is [io.EOF]. *)
Fixpoint insertLoop (reads : list csv_Read) (inserted : Z) : M Z :=
  match reads with
  | [] => ret inserted
  | (record, err) :: rest =>
      match err with
      | Some _ => insertLoop rest inserted
      | None =>
          if (List.length record <? 6)%nat then insertLoop rest inserted
          else
            ok <- stmt_Exec (recordArgs record) ;;
            if negb ok then insertLoop rest inserted
            else insertLoop rest (inserted + 1)
      end
  end.

(** [json.NewEncoder(w).Encode(result)], its error dropped: a total
    that is [NaN] or infinite is refused by the encoder and nothing is
    written, so the answer is 200 with no body. *)
Definition json_Encode (result : InsertResult) : Body :=
  match TotalPrice result with
  | Finite _ => JSON result
  | NaN | Inf _ => Empty
  end.

(** *** [handlePostPrices]

    The handler is written in two parts: [importRows] is its second
    half, from the first [reader.Read] to the response; [postPrices] is
    the whole of it up to the deferred calls, which [run] makes. *)
Definition importRows (reader : list csv_Read) : M Response :=
  (* the first Read is the header row *)
  inserted <- insertLoop (tl reader) 0 ;;
  ok <- tx_Commit ;;
  if negb ok
  then http_Error "Internal Server Error" StatusInternalServerError
  else
  result <- getInsertResult inserted ;;
  match result with
  | None => http_Error "Internal Server Error" StatusInternalServerError
  | Some result => ret (mkResponse StatusOK (json_Encode result))
  end.

Definition postPrices (r : Request) : M Response :=
  if negb (strings.Contains (ContentType r) "multipart/form-data")
  then http_Error "Expected multipart/form-data" StatusBadRequest
  else
  match MultipartForm r with
  | None => http_Error "Bad Request" StatusBadRequest
  | Some form =>
  match FormFile form "file" with
  | None => http_Error "Bad Request" StatusBadRequest
  | Some header =>
  if negb (strings.HasSuffix (ToLower (Filename header)) ".zip")
  then http_Error "File must be a ZIP archive" StatusBadRequest
  else
  match readFileToBytes header with
  | None => http_Error "Internal Server Error" StatusInternalServerError
  | Some buf =>
  match zip_NewReader buf with
  | None => http_Error "Bad Request" StatusBadRequest
  | Some zipReader =>
  match findCSV zipReader with
  | None => http_Error "CSV file not found in ZIP" StatusBadRequest
  | Some csvFile =>
      ok <- db_BeginTx ;;
      if negb ok
      then http_Error "Internal Server Error" StatusInternalServerError
      else
      ok <- tx_Prepare ;;
      if negb ok
      then http_Error "Internal Server Error" StatusInternalServerError
      else
      match openCSVFromZip csvFile with
      | None => http_Error "Internal Server Error" StatusInternalServerError
      | Some reader => importRows reader
      end
  end end end end end.

(** A handler runs from no transaction and no store call; when it
    returns, [defer tx.Rollback()] runs. *)
Definition run (m : M Response) (d : DB) : Outcome :=
  let '(r, s) := m (mkSt d None []) in
  let s := tx_Rollback s in
  mkOutcome (match r with inl a => a | inr a => a end) (db s) (ops s).

Definition handlePostPrices (d : DB) (r : Request) : Outcome :=
  run (postPrices r) d.

(** *** [handlePostPrices], its loop over the calls of [Read]

    [insertLoop] runs over the records that come before [io.EOF].  The
    loop as it is written asks the reader again and again and leaves
    only at [io.EOF]: [readLoop] is that loop, [Read n] being the result
    of the call number [n] ([None] for [io.EOF]), for at most [turns]
    turns; [None] says that the loop is still turning after them. *)
Fixpoint readLoop (turns : nat) (Read : nat -> option csv_Read) (n : nat)
    (inserted : Z) : M (option Z) :=
  match turns with
  | O => ret None
  | S turns =>
      match Read n with
      | None => ret (Some inserted)
      | Some (record, err) =>
          match err with
          | Some _ => readLoop turns Read (S n) inserted
          | None =>
              if (List.length record <? 6)%nat
              then readLoop turns Read (S n) inserted
              else
                ok <- stmt_Exec (recordArgs record) ;;
                if negb ok then readLoop turns Read (S n) inserted
                else readLoop turns Read (S n) (inserted + 1)
          end
      end
  end.

(** The second half of the handler; the call number 0 of [Read] is the
    header row. *)
Definition importRowsIn (turns : nat) (Read : nat -> option csv_Read)
  : M (option Response) :=
  inserted <- readLoop turns Read 1 0 ;;
  match inserted with
  | None => ret None
  | Some inserted =>
      ok <- tx_Commit ;;
      if negb ok
      then http_Error "Internal Server Error" StatusInternalServerError
      else
      result <- getInsertResult inserted ;;
      match result with
      | None => http_Error "Internal Server Error" StatusInternalServerError
      | Some result => ret (Some (mkResponse StatusOK (json_Encode result)))
      end
  end.

Definition postPricesIn (turns : nat) (r : Request) : M (option Response) :=
  if negb (strings.Contains (ContentType r) "multipart/form-data")
  then http_Error "Expected multipart/form-data" StatusBadRequest
  else
  match MultipartForm r with
  | None => http_Error "Bad Request" StatusBadRequest
  | Some form =>
  match FormFile form "file" with
  | None => http_Error "Bad Request" StatusBadRequest
  | Some header =>
  if negb (strings.HasSuffix (ToLower (Filename header)) ".zip")
  then http_Error "File must be a ZIP archive" StatusBadRequest
  else
  match readFileToBytes header with
  | None => http_Error "Internal Server Error" StatusInternalServerError
  | Some buf =>
  match zip_NewReader buf with
  | None => http_Error "Bad Request" StatusBadRequest
  | Some zipReader =>
  match findCSV zipReader with
  | None => http_Error "CSV file not found in ZIP" StatusBadRequest
  | Some csvFile =>
      ok <- db_BeginTx ;;
      if negb ok
      then http_Error "Internal Server Error" StatusInternalServerError
      else
      ok <- tx_Prepare ;;
      if negb ok
      then http_Error "Internal Server Error" StatusInternalServerError
      else
      match Open csvFile with
      | None => http_Error "Internal Server Error" StatusInternalServerError
      | Some f =>
          importRowsIn turns (reader_Read (csv_NewReader f) (csv_broken f))
      end
  end end end end end.

(** The handler returns, and its deferred calls run, when the loop has
    left; [None] when the loop is still turning. *)
Definition handlePostPricesIn (turns : nat) (d : DB) (r : Request)
  : option Outcome :=
  let '(r, s) := postPricesIn turns r (mkSt d None []) in
  match r with
  | inl None => None
  | inl (Some a) | inr a =>
      let s := tx_Rollback s in Some (mkOutcome a (db s) (ops s))
  end.

(** *** [handleGetPrices] *)

(** [ORDER BY id ASC] *)
Fixpoint insert_by_id (row : StoredPrice) (sorted : list StoredPrice)
  : list StoredPrice :=
  match sorted with
  | [] => [row]
  | r :: rest =>
      if id row <? id r then row :: sorted
      else r :: insert_by_id row rest
  end.

Definition order_by_id (rows : list StoredPrice) : list StoredPrice :=
  fold_right insert_by_id [] (rev rows).

(** [db.Query]: the rows of [prices] by identifier, or an error. *)
Definition db_Query : M (option (list StoredPrice)) :=
  _ <- call OpQueryAll ;;
  fun s =>
    if Query_fails F then (inl None, s)
    else (inl (Some (order_by_id (prices (db s)))), s).

Definition csvHeader : list string :=
  ["id"; "product_id"; "name"; "category"; "price"; "create_date"].

(** The line of one scanned row. *)
Definition csvLine (row : StoredPrice) : list string :=
  [ strconv.Itoa (id row);
    strconv.Itoa (product_id row);
    name row;
    category row;
    Sprintf_2f (price row);
    time.Format (create_date row) ].

(** The [rows.Next] loop: [None] when a [Scan] fails. *)
Fixpoint scanRows (rows : list StoredPrice) (all : list (list string))
  : option (list (list string)) :=
  match rows with
  | [] => Some all
  | row :: rest =>
      if Scan_fails F row then None
      else scanRows rest (all ++ [csvLine row])
  end.

Definition getPrices : M Response :=
  rows <- db_Query ;;
  match rows with
  | None => http_Error "Internal Server Error" StatusInternalServerError
  | Some rows =>
  match scanRows rows [csvHeader] with
  | None => http_Error "Internal Server Error" StatusInternalServerError
  | Some all =>
  if RowsErr F
  then http_Error "Internal Server Error" StatusInternalServerError
  else
  match csv_WriteAll all with
  | None => http_Error "Internal Server Error" StatusInternalServerError
  | Some csvBuf =>
  match zip_NewWriter "data.csv" csvBuf with
  | CreateError | WriteError | CloseError =>
      http_Error "Internal Server Error" StatusInternalServerError
  | Archive zipBuf => ret (mkResponse StatusOK (Attachment zipBuf))
  end end end end.

Definition handleGetPrices (d : DB) : Outcome := run getPrices d.

(** The dispatch on the method in [main]. *)
Definition serve (d : DB) (r : Request) : Outcome :=
  if String.eqb (Method r) "POST" then handlePostPrices d r
  else if String.eqb (Method r) "GET" then handleGetPrices d
  else mkOutcome
         (mkResponse StatusMethodNotAllowed (Text "Method Not Allowed"))
         d [].

End Handlers.

(** ** A small executable library

    An instance of [Library] to run the handlers on concrete uploads:
    plain CSV without quoting, a byte-stuffed archive format, ASCII
    lower-casing and decimal literals for prices.  The theorems below hold
    for every instance; this one serves the examples. *)
Module Ref.

Definition lower (c : ascii) : ascii :=
  let n := nat_of_ascii c in
  if ((65 <=? n) && (n <=? 90))%nat then ascii_of_nat (n + 32) else c.

Fixpoint ToLower (s : string) : string :=
  match s with
  | EmptyString => EmptyString
  | String c s' => String (lower c) (ToLower s')
  end.

(** *** CSV: records end with a newline, fields are separated by commas *)

Definition newline : ascii := ascii_of_nat 10.

Fixpoint split (sep : ascii) (s cur : string) : list string :=
  match s with
  | EmptyString => [cur]
  | String c s' =>
      if Ascii.eqb c sep then cur :: split sep s' ""
      else split sep s' (cur ++ String c "")
  end.

Fixpoint has (c : ascii) (s : string) : bool :=
  match s with
  | EmptyString => false
  | String c' s' => Ascii.eqb c c' || has c s'
  end.

Definition nonempty (s : string) : bool := negb (String.eqb s "").

Definition readLine (width : nat) (line : string) : csv_Read :=
  if has (ascii_of_nat 34) line then ([], Some "bare quote in non-quoted field")
  else
    let record := split "," line "" in
    if (List.length record =? width)%nat then (record, None)
    else (record, Some "wrong number of fields").

Definition csv_NewReader (b : bytes) : list csv_Read :=
  let lines := filter nonempty (split newline (string_of_list_byte b) "") in
  match lines with
  | [] => []
  | first :: _ =>
      map (readLine (List.length (split "," first ""))) lines
  end.

(** The entries are read from memory: no stream breaks. *)
Definition csv_broken (b : bytes) : option string := None.

Definition plain (field : string) : bool :=
  negb (has "," field || has newline field || has (ascii_of_nat 34) field
        || has (ascii_of_nat 13) field).

Fixpoint join (sep : string) (l : list string) : string :=
  match l with
  | [] => ""
  | [x] => x
  | x :: rest => x ++ sep ++ join sep rest
  end.

Definition csv_WriteAll (records : list (list string)) : option bytes :=
  if forallb (forallb plain) records
  then Some (list_byte_of_string
               (fold_right
                  (fun r out => join "," r ++ String newline out)
                  "" records))
  else None.

(** *** Archives: the bytes [P], [K], then for each entry its name and
    its contents, each closed by a zero byte; inside them the byte 0 is
    written 1 1 and the byte 1 is written 1 2. *)

Fixpoint stuff (b : bytes) : bytes :=
  match b with
  | [] => []
  | Byte.x00 :: b' => Byte.x01 :: Byte.x01 :: stuff b'
  | Byte.x01 :: b' => Byte.x01 :: Byte.x02 :: stuff b'
  | c :: b' => c :: stuff b'
  end.

(** The chunks closed by a zero byte, unstuffed; [None] on a bad escape
    or an unclosed chunk. *)
Fixpoint chunks (b cur : bytes) (esc : bool) : option (list bytes) :=
  match b with
  | [] => if esc then None else match cur with [] => Some [] | _ => None end
  | c :: b' =>
      if esc then
        match c with
        | Byte.x01 => chunks b' (cur ++ [Byte.x00])%list false
        | Byte.x02 => chunks b' (cur ++ [Byte.x01])%list false
        | _ => None
        end
      else
        match c with
        | Byte.x00 =>
            match chunks b' [] false with
            | Some l => Some (cur :: l)
            | None => None
            end
        | Byte.x01 => chunks b' cur true
        | _ => chunks b' (cur ++ [c])%list false
        end
  end.

Fixpoint entries (l : list bytes) : option (list zip_File) :=
  match l with
  | [] => Some []
  | n :: c :: rest =>
      match entries rest with
      | Some fs => Some (mkFile (string_of_list_byte n) (Some c) :: fs)
      | None => None
      end
  | _ => None
  end.

Definition zip_NewReader (b : bytes) : option (list zip_File) :=
  match b with
  | Byte.x50 :: Byte.x4b :: rest =>
      match chunks rest [] false with
      | Some l => entries l
      | None => None
      end
  | _ => None
  end.

Definition entry (n : string) (c : bytes) : bytes :=
  (stuff (list_byte_of_string n) ++ [Byte.x00] ++ stuff c ++ [Byte.x00])%list.

Definition zip_NewWriter (n : string) (c : bytes) : zip_Written :=
  Archive (Byte.x50 :: Byte.x4b :: entry n c).

(** An archive of several entries. *)
Definition archive (files : list (string * bytes)) : bytes :=
  Byte.x50 :: Byte.x4b :: concat (map (fun f => entry (fst f) (snd f)) files).

(** *** Prices: an optional sign, digits, and optionally a point and
    more digits *)

Definition unsigned (s : string) : option Q :=
  match split "." s "" with
  | [i] =>
      if nonempty i then
        match time.digits i 0 with
        | Some n => Some (inject_Z n)
        | None => None
        end
      else None
  | [i; f] =>
      if nonempty (i ++ f) then
        match time.digits (i ++ f) 0 with
        | Some n => Some (Qred (n # Pos.of_nat (10 ^ String.length f)))
        | None => None
        end
      else None
  | _ => None
  end.

(** [NaN] and the infinities, as [ParseFloat] spells them. *)
Definition special (s : string) : option float64 :=
  let l := ToLower s in
  if String.eqb l "nan" then Some NaN
  else if String.eqb l "inf" || String.eqb l "+inf"
          || String.eqb l "infinity" || String.eqb l "+infinity"
  then Some (Inf false)
  else if String.eqb l "-inf" || String.eqb l "-infinity"
  then Some (Inf true)
  else None.

Definition ParseFloat (s : string) : float64 * option strconv.NumError :=
  match special s with
  | Some v => (v, None)
  | None =>
      let '(neg, body) :=
        match s with
        | String "-" s' => (true, s')
        | String "+" s' => (false, s')
        | _ => (false, s)
        end in
      match unsigned body with
      | Some q => (Finite (if neg then Qred (Qopp q) else q), None)
      | None => (Finite 0, Some strconv.ErrSyntax)
      end
  end.

(** Two decimals, half away from zero. *)
Definition Sprintf_2f (f : float64) : string :=
  match f with
  | Finite q =>
      let n :=
        (Z.abs (Qnum q) * 200 + Zpos (Qden q)) / (2 * Zpos (Qden q)) in
      (if (Qnum q <? 0) && (0 <? n) then "-" else "")
        ++ strconv.Itoa (n / 100) ++ "." ++ time.appendInt (n mod 100) 2
  | NaN => "NaN"
  | Inf false => "+Inf"
  | Inf true => "-Inf"
  end.

(** The binary64 nearest a rational, ties to even, by its exact value:
    53 bits of precision, exponents down to -1074, an infinity from
    [2^1024] on. *)
Definition nearest64 (q : Q) : number :=
  let r := Qred q in
  let n := Z.abs (Qnum r) in
  let d := Z.pos (Qden r) in
  if n =? 0 then Finite 0
  else
    let e0 := Z.log2 n - Z.log2 d in
    let e :=
      if (if 0 <=? e0 then d * 2 ^ e0 <=? n else d <=? n * 2 ^ (- e0))
      then e0 else e0 - 1 in
    let x := Z.max (e - 52) (-1074) in
    let num := if x <? 0 then n * 2 ^ (- x) else n in
    let den := if x <? 0 then d else d * 2 ^ x in
    let qt := num / den in
    let rm := num mod den in
    let m :=
      if 2 * rm <? den then qt
      else if den <? 2 * rm then qt + 1
      else qt + qt mod 2 in
    let negative := Qnum r <? 0 in
    let sign := if negative then -1 else 1 in
    if x <? 0 then Finite (Qred (sign * m # Z.to_pos (2 ^ (- x))))
    else if 2 ^ 1024 <=? m * 2 ^ x then Inf negative
    else Finite (inject_Z (sign * m * 2 ^ x)).

(** The scan of a [NUMERIC]: a short number is the name of its
    [float64]; a longer one goes to the nearest binary64, named here by
    its exact value. *)
Definition Scan_float64 (v : NUMERIC) : float64 :=
  match v with
  | Finite q => if short15 q then Finite q else nearest64 q
  | NaN => NaN
  | Inf s => Inf s
  end.

Lemma ParseFloat_syntax s :
  snd (ParseFloat s) = Some strconv.ErrSyntax -> fst (ParseFloat s) = 0%Q.
Proof.
  unfold ParseFloat.
  destruct (special s); [discriminate|].
  destruct (match s with
            | String "-" s' => (true, s')
            | String "+" s' => (false, s')
            | _ => (false, s)
            end) as [neg body].
  destruct (unsigned body); simpl; [discriminate | reflexivity].
Qed.

Lemma Scan_float64_short q :
  short15 q = true -> Scan_float64 (Finite q) = Finite q.
Proof. intros H. unfold Scan_float64. rewrite H. reflexivity. Qed.

#[global] Instance library : Library :=
  Build_Library ToLower zip_NewReader zip_NewWriter csv_NewReader csv_broken
    csv_WriteAll ParseFloat Sprintf_2f Scan_float64
    ParseFloat_syntax Scan_float64_short.

(** The same library over archives whose entries are damaged: every
    entry gives its records and then a checksum error. *)
Definition damaged : Library :=
  Build_Library ToLower zip_NewReader zip_NewWriter csv_NewReader
    (fun _ => Some "zip: checksum error")
    csv_WriteAll ParseFloat Sprintf_2f Scan_float64
    ParseFloat_syntax Scan_float64_short.

End Ref.

(** ** What the import path is expected to do

    The definitions the statements below are written with: which rows
    of an upload reach the store, which of them it accepts, the rows they
    become, and the outcome of an upload in terms of these. *)

Section Expected.

Context {L : Library}.
Variable F : Faults.

(** A data row reaches the store when it was read without error and
    has at least 6 columns. *)
Definition reachesStore (x : csv_Read) : bool :=
  match snd x with
  | None => (6 <=? List.length (fst x))%nat
  | Some _ => false
  end.

(** The inserts a stream of data rows asks for, in order. *)
Definition attempts (reads : list csv_Read) : list PriceRecord :=
  map (fun x => recordArgs (fst x)) (filter reachesStore reads).

(** Of the inserts [atts], made as the calls [k], [k+1], ... of a
    transaction, those that succeed. *)
Definition accepted (k : nat) (atts : list PriceRecord) : list PriceRecord :=
  map snd
      (filter (fun p => negb (Exec_fails F (fst p) (snd p)))
              (combine (seq k (List.length atts)) atts)).

(** The rows the accepted inserts make, numbered after [i]. *)
Fixpoint numbered (i : Z) (l : list PriceRecord) : list StoredPrice :=
  match l with
  | [] => []
  | rec :: l' =>
      mkStored (i + 1) (productID rec) (rname rec) (rcategory rec)
               (rprice rec) (rdate rec)
        :: numbered (i + 1) l'
  end.

(** The fields of a stored row. *)
Definition fields (row : StoredPrice) : PriceRecord :=
  mkRecord (product_id row) (name row) (category row) (price row)
           (create_date row).

(** The entry an upload carries, when every check that comes before the
    transaction passes. *)
Definition uploadedCSV (r : Request) : option zip_File :=
  if strings.Contains (ContentType r) "multipart/form-data" then
    match MultipartForm r with
    | None => None
    | Some form =>
        match FormFile form "file" with
        | None => None
        | Some header =>
            if strings.HasSuffix (ToLower (Filename header)) ".zip" then
              match content header with
              | None => None
              | Some buf =>
                  match zip_NewReader buf with
                  | None => None
                  | Some files => findCSV files
                  end
              end
            else None
        end
    end
  else None.

Definition InternalServerError : Response :=
  mkResponse StatusInternalServerError (Text "Internal Server Error").

(** The second half of the handler, from a state with a fresh
    transaction. *)
Definition afterImport (reader : list csv_Read) (s : St)
  : (Response + Response) * St :=
  let atts := attempts (tl reader) in
  let acc := accepted 0 atts in
  let n := Z.of_nat (List.length acc) in
  let calls := (ops s ++ map OpExec atts ++ [OpCommit])%list in
  if Commit_fails F then
    (inr InternalServerError,
     mkSt (mkDB (prices (db s)) (last_id (db s) + n)) None calls)
  else
    let d' := mkDB (prices (db s) ++ numbered (last_id (db s)) acc)
                   (last_id (db s) + n) in
    if CountQuery_fails F then
      (inr InternalServerError, mkSt d' None (calls ++ [OpQueryCount])%list)
    else if SumQuery_fails F then
      (inr InternalServerError,
       mkSt d' None (calls ++ [OpQueryCount; OpQuerySum])%list)
    else
      (inl (mkResponse StatusOK
              (json_Encode
                 (mkInsertResult n
                    (sql_count_distinct (map category (prices d')))
                    (Scan_float64
                       (sql_COALESCE (sql_SUM (map price (prices d')))
                                     0%Q))))),
       mkSt d' None (calls ++ [OpQueryCount; OpQuerySum])%list).

(** The outcome of an upload that passes the checks. *)
Definition importOutcome (d : DB) (csvFile : zip_File) : Outcome :=
  if BeginTx_fails F then mkOutcome InternalServerError d [OpBeginTx]
  else if Prepare_fails F
  then mkOutcome InternalServerError d [OpBeginTx; OpPrepare; OpRollback]
  else
    match Open csvFile with
    | None => mkOutcome InternalServerError d [OpBeginTx; OpPrepare; OpRollback]
    | Some data =>
        let '(r, s) :=
          afterImport (csv_NewReader data)
            (mkSt d (Some (mkTx [] 0)) [OpBeginTx; OpPrepare]) in
        mkOutcome (match r with inl a => a | inr a => a end) (db s) (ops s)
    end.

End Expected.

(** While the loop turns, the transaction stays open, the table is as
    it was and the store calls are inserts. *)
Definition turning (s : St) (x : (option Z + Response) * St) : Prop :=
  exists s' t' recs,
    x = (inl None, s')
    /\ tx s' = Some t'
    /\ prices (db s') = prices (db s)
    /\ ops s' = (ops s ++ map OpExec recs)%list.

(** The same driver with both aggregation queries in order. *)
Definition queriesOK (F : Faults) : Faults :=
  mkFaults (BeginTx_fails F) (Prepare_fails F) (Exec_fails F)
           (Commit_fails F) false false
           (Query_fails F) (Scan_fails F) (RowsErr F).

(** An entry the unpacker looks for. *)
Definition isData (f : zip_File) : bool :=
  strings.HasSuffix (Name f) "data.csv".

(** ** Concrete runs *)

(** A driver in which nothing fails. *)
Definition noFaults : Faults :=
  mkFaults false false (fun _ _ => false) false false false false
           (fun _ => false) false.

Definition emptyDB : DB := mkDB [] 0.

Definition lines (l : list string) : bytes :=
  list_byte_of_string
    (fold_right (fun x out => x ++ String Ref.newline out) "" l).

(** A data file with two good rows, a row of five columns and a row
    whose product id, price and date do not parse. *)
Definition sample_csv : bytes :=
  lines [ "product_id,name,category,unit,price,create_date";
          "7,apple,fruit,kg,10.00,2024-01-01";
          "9,short,row,kg,2";
          "8,pear,fruit,kg,20.50,2024-01-02";
          "x1,plum,stone fruit,kg,cheap,yesterday" ].

Definition upload (filename : string) (payload : bytes) : Request :=
  mkRequest "POST" "multipart/form-data; boundary=xyz"
            (Some [("file", mkFileHeader filename (Some payload))]).

Definition sample_upload : Request :=
  upload "prices.zip"
         (Ref.archive [("README.txt", lines ["prices"]);
                       ("foo/data.csv", sample_csv)]).

(** A table of one row. *)
Definition one_apple : DB :=
  mkDB [mkStored 1 7 "apple" "fruit" (10 # 1) (time.mkTime 2024 1 1)] 1.

(** A table whose rows are out of identifier order. *)
Definition pear_then_apple : DB :=
  mkDB [mkStored 2 8 "pear" "fruit" (2050 # 100) (time.mkTime 2024 1 2);
        mkStored 1 7 "apple" "fruit" (10 # 1) (time.mkTime 2024 1 1)] 2.

(** The records of the inserts among the calls of a trace, in order. *)
Fixpoint execs (t : list DbOp) : list PriceRecord :=
  match t with
  | [] => []
  | OpExec rec :: t' => rec :: execs t'
  | _ :: t' => execs t'
  end.

(** [l] is [l'] with some elements left out, the order kept. *)
Inductive Subseq {A : Type} : list A -> list A -> Prop :=
| Subseq_nil : Subseq [] []
| Subseq_skip x l l' : Subseq l l' -> Subseq l (x :: l')
| Subseq_keep x l l' : Subseq l l' -> Subseq (x :: l) (x :: l').

(** Rows in ascending identifier order. *)
Definition by_id (a b : StoredPrice) : Prop := id a <= id b.

(** A store is in order when the identifiers of its rows increase
    strictly down the table and none exceeds the last value the serial
    column has handed out: the primary key is unique and the next
    identifier is fresh. *)
Definition inOrder (d : DB) : Prop :=
  StronglySorted Z.lt (map id (prices d))
  /\ Forall (fun i => i <= last_id d) (map id (prices d)).

(** ** The insert loop and the import path *)

Section ImportPath.

Context {L : Library}.
Variable F : Faults.

Lemma attempts_cons x reads :
  attempts (x :: reads) =
    if reachesStore x then recordArgs (fst x) :: attempts reads
    else attempts reads.
Proof.
  unfold attempts. cbn [filter]. destruct (reachesStore x); reflexivity.
Qed.

Lemma accepted_cons k rec atts :
  accepted F k (rec :: atts) =
    if Exec_fails F k rec then accepted F (S k) atts
    else rec :: accepted F (S k) atts.
Proof.
  unfold accepted; simpl.
  destruct (Exec_fails F k rec); reflexivity.
Qed.

Lemma numbered_length i l : List.length (numbered i l) = List.length l.
Proof.
  revert i; induction l as [|rec l IH]; intros i; simpl; [|rewrite IH]; reflexivity.
Qed.

Lemma stmt_Exec_fails rec s t :
  tx s = Some t ->
  Exec_fails F (calls t) rec = true ->
  stmt_Exec F rec s =
    (inl false,
     mkSt (db s) (Some (mkTx (pending t) (S (calls t))))
          (ops s ++ [OpExec rec])%list).
Proof.
  intros Ht Hf. unfold stmt_Exec, bind, call; simpl.
  rewrite Ht, Hf. reflexivity.
Qed.

Lemma stmt_Exec_succeeds rec s t :
  tx s = Some t ->
  Exec_fails F (calls t) rec = false ->
  stmt_Exec F rec s =
    (inl true,
     mkSt (mkDB (prices (db s)) (last_id (db s) + 1))
          (Some (mkTx (pending t
                         ++ [mkStored (last_id (db s) + 1) (productID rec)
                               (rname rec) (rcategory rec) (rprice rec)
                               (rdate rec)])%list
                      (S (calls t))))
          (ops s ++ [OpExec rec])%list).
Proof.
  intros Ht Hf. unfold stmt_Exec, bind, call; simpl.
  rewrite Ht, Hf. reflexivity.
Qed.

(** The loop never leaves the handler; it makes one store call per
    attempt, counts the accepted ones and leaves their rows waiting in
    the transaction. *)
Lemma insertLoop_run reads : forall inserted s t,
  tx s = Some t ->
  insertLoop F reads inserted s =
    (inl (inserted + Z.of_nat (List.length (accepted F (calls t) (attempts reads)))),
     mkSt (mkDB (prices (db s))
                (last_id (db s)
                 + Z.of_nat (List.length (accepted F (calls t) (attempts reads)))))
          (Some (mkTx (pending t
                         ++ numbered (last_id (db s))
                              (accepted F (calls t) (attempts reads)))%list
                      (calls t + List.length (attempts reads))))
          (ops s ++ map OpExec (attempts reads))%list).
Proof.
  induction reads as [|[record err] rest IH]; intros inserted s t Ht.
  - destruct s as [[ps li] tx0 os], t as [pe ca]; simpl in *. subst tx0.
    unfold ret; simpl.
    rewrite !Z.add_0_r, !app_nil_r, Nat.add_0_r. reflexivity.
  - simpl insertLoop. rewrite attempts_cons. unfold reachesStore; simpl fst; simpl snd.
    destruct err as [e|].
    + apply IH; assumption.
    + destruct (List.length record <? 6)%nat eqn:Hlen.
      * assert (Hle : (6 <=? List.length record)%nat = false).
        { apply Nat.ltb_lt in Hlen. apply Nat.leb_gt. assumption. }
        rewrite Hle. apply IH; assumption.
      * assert (Hle : (6 <=? List.length record)%nat = true).
        { apply Nat.ltb_ge in Hlen. apply Nat.leb_le. assumption. }
        rewrite Hle.
        rewrite accepted_cons. unfold bind.
        destruct (Exec_fails F (calls t) (recordArgs record)) eqn:Hf.
        -- rewrite (stmt_Exec_fails _ _ _ Ht Hf). cbn [negb].
           rewrite (IH inserted _ (mkTx (pending t) (S (calls t))))
             by reflexivity.
           cbn [db tx ops pending calls prices last_id List.length map].
           rewrite <- app_assoc. cbn [app].
           rewrite Nat.add_succ_r. reflexivity.
        -- rewrite (stmt_Exec_succeeds _ _ _ Ht Hf). cbn [negb].
           erewrite IH by reflexivity.
           cbn [db tx ops pending calls prices last_id List.length map
                numbered].
           rewrite <- !app_assoc. cbn [app].
           rewrite Nat.add_succ_r, Nat2Z.inj_succ.
           rewrite <- !Z.add_assoc, !Z.add_1_l.
           reflexivity.
Qed.

Lemma importRows_run reader s :
  tx s = Some (mkTx [] 0) ->
  importRows F reader s = afterImport F reader s.
Proof.
  intros Ht. unfold importRows, afterImport, bind.
  rewrite (insertLoop_run _ _ _ _ Ht).
  cbn [pending calls app Nat.add Z.add].
  unfold tx_Commit, bind, call. cbn [db tx ops prices last_id].
  destruct (Commit_fails F).
  - cbn. rewrite <- app_assoc. reflexivity.
  - cbn [negb]. unfold getInsertResult, bind, query_categories, bind, call.
    cbn [db tx ops prices last_id].
    destruct (CountQuery_fails F).
    + cbn. rewrite <- !app_assoc. reflexivity.
    + unfold query_price, bind, call. cbn [db tx ops prices last_id].
      destruct (SumQuery_fails F); cbn; rewrite <- !app_assoc; reflexivity.
Qed.

(** An upload that fails a check is answered before the store is
    touched, with a client error unless the part could not be read. *)
Lemma postPrices_rejects r s :
  uploadedCSV r = None ->
  exists resp,
    postPrices F r s = (inr resp, s)
    /\ ((exists msg, resp = mkResponse StatusBadRequest (Text msg))
        \/ exists form header,
             MultipartForm r = Some form
             /\ FormFile form "file" = Some header
             /\ content header = None
             /\ resp = InternalServerError).
Proof.
  unfold uploadedCSV, postPrices, readFileToBytes, http_Error.
  destruct (strings.Contains (ContentType r) "multipart/form-data");
    cbn [negb]; [|intros _; eexists; split; [reflexivity | left; eexists; reflexivity]].
  destruct (MultipartForm r) as [form|] eqn:Hm;
    [|intros _; eexists; split; [reflexivity | left; eexists; reflexivity]].
  destruct (FormFile form "file") as [header|] eqn:Hf;
    [|intros _; eexists; split; [reflexivity | left; eexists; reflexivity]].
  destruct (strings.HasSuffix (ToLower (Filename header)) ".zip");
    cbn [negb]; [|intros _; eexists; split; [reflexivity | left; eexists; reflexivity]].
  destruct (content header) as [buf|] eqn:Hc.
  - destruct (zip_NewReader buf) as [files|];
      [|intros _; eexists; split; [reflexivity | left; eexists; reflexivity]].
    intros ->. eexists; split; [reflexivity | left; eexists; reflexivity].
  - intros _. eexists; split; [reflexivity|].
    right. exists form, header. repeat split; auto.
Qed.

(** An upload that passes the checks opens a transaction. *)
Lemma postPrices_accepts r csvFile :
  uploadedCSV r = Some csvFile ->
  postPrices F r =
    (ok <- db_BeginTx F ;;
     if negb ok
     then http_Error "Internal Server Error" StatusInternalServerError
     else
     ok <- tx_Prepare F ;;
     if negb ok
     then http_Error "Internal Server Error" StatusInternalServerError
     else
     match openCSVFromZip csvFile with
     | None => http_Error "Internal Server Error" StatusInternalServerError
     | Some reader => importRows F reader
     end).
Proof.
  unfold uploadedCSV, postPrices, readFileToBytes.
  destruct (strings.Contains (ContentType r) "multipart/form-data");
    [|discriminate].
  destruct (MultipartForm r) as [form|]; [|discriminate].
  destruct (FormFile form "file") as [header|]; [|discriminate].
  destruct (strings.HasSuffix (ToLower (Filename header)) ".zip");
    [|discriminate].
  destruct (content header) as [buf|]; [|discriminate].
  destruct (zip_NewReader buf) as [files|]; [|discriminate].
  intros ->. reflexivity.
Qed.

Lemma handlePostPrices_accepts d r csvFile :
  uploadedCSV r = Some csvFile ->
  handlePostPrices F d r = importOutcome F d csvFile.
Proof.
  intros Hu. unfold handlePostPrices, run, importOutcome.
  rewrite (postPrices_accepts _ _ Hu).
  unfold bind, db_BeginTx, bind, call. cbn [db tx ops].
  destruct (BeginTx_fails F); [destruct d; reflexivity|].
  cbn [negb]. unfold tx_Prepare, bind, call, ret. cbn [db tx ops app].
  destruct (Prepare_fails F); [destruct d; reflexivity|].
  cbn [negb]. unfold openCSVFromZip.
  destruct (Open csvFile) as [data|]; [|destruct d; reflexivity].
  rewrite importRows_run by reflexivity.
  unfold afterImport. cbn [db tx ops prices last_id].
  destruct (Commit_fails F); [reflexivity|].
  destruct (CountQuery_fails F); [reflexivity|].
  destruct (SumQuery_fails F); reflexivity.
Qed.

Lemma handlePostPrices_rejects d r :
  uploadedCSV r = None ->
  store (handlePostPrices F d r) = d
  /\ trace (handlePostPrices F d r) = []
  /\ ((exists msg,
         response (handlePostPrices F d r)
         = mkResponse StatusBadRequest (Text msg))
      \/ (response (handlePostPrices F d r) = InternalServerError
          /\ exists form header,
               MultipartForm r = Some form
               /\ FormFile form "file" = Some header
               /\ content header = None)).
Proof.
  intros Hu. unfold handlePostPrices, run.
  destruct (postPrices_rejects r (mkSt d None []) Hu) as (resp & -> & Hr).
  cbn. repeat split.
  destruct Hr as [Hr | (form & header & Hm & Hf & Hc & ->)];
    [left; exact Hr | right; split; [reflexivity | eauto]].
Qed.

(** A row that does not reach the store leaves the loop as it was. *)
Lemma insertLoop_skips pre x post :
  reachesStore x = false ->
  forall inserted s,
    insertLoop F (pre ++ x :: post) inserted s
    = insertLoop F (pre ++ post) inserted s.
Proof.
  intros Hx. induction pre as [|[record err] pre IH]; intros inserted s.
  - destruct x as [record err]. cbn [app insertLoop].
    unfold reachesStore in Hx; cbn [fst snd] in Hx.
    destruct err; [reflexivity|].
    apply Nat.leb_gt in Hx. apply Nat.ltb_lt in Hx. rewrite Hx. reflexivity.
  - cbn [app insertLoop].
    destruct err; [apply IH|].
    destruct (List.length record <? 6)%nat; [apply IH|].
    unfold bind. destruct (stmt_Exec F (recordArgs record) s) as [[ok|resp] s'];
      [|reflexivity].
    destruct ok; cbn [negb]; apply IH.
Qed.

Lemma attempts_skips pre x post :
  reachesStore x = false ->
  attempts (pre ++ x :: post) = attempts (pre ++ post).
Proof.
  intros Hx. unfold attempts. rewrite !filter_app. cbn [filter].
  rewrite Hx. reflexivity.
Qed.

(** Where an attempted insert comes from. *)
Lemma attempts_In rec reads :
  In rec (attempts reads) ->
  exists record,
    In (record, None) reads
    /\ (6 <= List.length record)%nat
    /\ rec = recordArgs record.
Proof.
  unfold attempts. rewrite in_map_iff.
  intros ([record err] & <- & Hin). apply filter_In in Hin.
  destruct Hin as [Hin Hr]. unfold reachesStore in Hr; cbn [fst snd] in Hr.
  destruct err; [discriminate|]. apply Nat.leb_le in Hr.
  exists record. auto.
Qed.

Lemma accepted_In rec atts : forall k,
  In rec (accepted F k atts) -> In rec atts.
Proof.
  induction atts as [|a atts IH]; intros k; [intros []|].
  rewrite accepted_cons. destruct (Exec_fails F k a).
  - intros H. right. exact (IH _ H).
  - intros [->|H]; [left; reflexivity | right; exact (IH _ H)].
Qed.

Lemma numbered_fields l : forall i, map fields (numbered i l) = l.
Proof.
  induction l as [|[p n c q t] l IH]; intros i; cbn; [|rewrite IH]; reflexivity.
Qed.

Lemma numbered_In row l i :
  In row (numbered i l) -> In (fields row) l.
Proof.
  intros H. rewrite <- (numbered_fields l i). apply in_map. exact H.
Qed.

(** What the table holds after an import: the old rows, and after a
    successful commit the accepted rows of the upload. *)
Lemma importOutcome_prices d csvFile :
  prices (store (importOutcome F d csvFile)) = prices d
  \/ exists data,
       Open csvFile = Some data
       /\ Commit_fails F = false
       /\ prices (store (importOutcome F d csvFile))
          = (prices d
               ++ numbered (last_id d)
                    (accepted F 0 (attempts (tl (csv_NewReader data)))))%list.
Proof.
  unfold importOutcome, afterImport.
  destruct (BeginTx_fails F); [left; reflexivity|].
  destruct (Prepare_fails F); [left; reflexivity|].
  destruct (Open csvFile) as [data|]; [|left; reflexivity].
  destruct (Commit_fails F) eqn:Hc; [left; reflexivity|].
  right. exists data.
  destruct (CountQuery_fails F); [auto|].
  destruct (SumQuery_fails F); auto.
Qed.

End ImportPath.

(** ** The loop over the calls of [Read] *)

Section ReadCalls.

Context {L : Library}.
Variable F : Faults.

Lemma reader_Read_tl reads broken k :
  reader_Read reads broken (1 + k) = reader_Read (tl reads) broken (0 + k).
Proof.
  destruct reads as [|x reads]; [|reflexivity].
  unfold reader_Read. cbn [tl Nat.add nth_error].
  destruct k; reflexivity.
Qed.

(** The loop looks at the calls from its own on only. *)
Lemma readLoop_ext turns : forall Read Read' n n' inserted s,
  (forall k, Read (n + k)%nat = Read' (n' + k)%nat) ->
  readLoop F turns Read n inserted s = readLoop F turns Read' n' inserted s.
Proof.
  induction turns as [|turns IH]; intros Read Read' n n' inserted s H;
    cbn [readLoop]; [reflexivity|].
  assert (H0 : Read n = Read' n').
  { specialize (H 0%nat). rewrite !Nat.add_0_r in H. exact H. }
  assert (HS : forall k, Read (S n + k)%nat = Read' (S n' + k)%nat).
  { intros k. specialize (H (S k)). rewrite !Nat.add_succ_r in H. exact H. }
  rewrite H0. destruct (Read' n') as [[record [err|]]|]; [| |reflexivity].
  - apply IH, HS.
  - destruct (List.length record <? 6)%nat; [apply IH, HS|].
    unfold bind.
    destruct (stmt_Exec F (recordArgs record) s) as [[[|]|resp] s'];
      cbn [negb]; [apply IH, HS | apply IH, HS | reflexivity].
Qed.

(** Over a stream that ends, the loop leaves once it has had a turn for
    each record and one for [io.EOF], and it has done what [insertLoop]
    does over the records. *)
Lemma readLoop_ends reads : forall turns inserted s,
  (List.length reads < turns)%nat ->
  readLoop F turns (reader_Read reads None) 0 inserted s
  = match insertLoop F reads inserted s with
    | (inl n, s') => (inl (Some n), s')
    | (inr a, s') => (inr a, s')
    end.
Proof.
  induction reads as [|[record err] reads IH]; intros [|turns] inserted s Hlt;
    cbn [List.length] in Hlt; try lia; cbn [readLoop insertLoop].
  - reflexivity.
  - change (reader_Read ((record, err) :: reads) None 0)
      with (Some (record, err)).
    assert (Hlt' : (List.length reads < turns)%nat) by lia.
    assert (Hgo : forall inserted s,
              readLoop F turns (reader_Read ((record, err) :: reads) None) 1
                inserted s
              = match insertLoop F reads inserted s with
                | (inl n, s') => (inl (Some n), s')
                | (inr a, s') => (inr a, s')
                end).
    { intros i s0. rewrite <- (IH turns i s0 Hlt').
      apply readLoop_ext. intros k. apply reader_Read_tl. }
    destruct err as [e|]; [apply Hgo|].
    destruct (List.length record <? 6)%nat; [apply Hgo|].
    unfold bind.
    destruct (stmt_Exec F (recordArgs record) s) as [[[|]|resp] s'];
      cbn [negb]; [apply Hgo | apply Hgo | reflexivity].
Qed.

Lemma stmt_Exec_open rec s t :
  tx s = Some t ->
  exists ok s' t',
    stmt_Exec F rec s = (inl ok, s')
    /\ tx s' = Some t'
    /\ prices (db s') = prices (db s)
    /\ ops s' = (ops s ++ [OpExec rec])%list.
Proof.
  intros Ht. destruct (Exec_fails F (calls t) rec) eqn:Hf.
  - rewrite (stmt_Exec_fails F _ _ _ Ht Hf).
    eexists _, _, _. repeat split.
  - rewrite (stmt_Exec_succeeds F _ _ _ Ht Hf).
    eexists _, _, _. repeat split.
Qed.

Lemma turning_step s s1 t1 rec x :
  tx s1 = Some t1 ->
  prices (db s1) = prices (db s) ->
  ops s1 = (ops s ++ [OpExec rec])%list ->
  turning s1 x -> turning s x.
Proof.
  intros _ Hp Ho (s' & t' & recs & -> & Ht & Hp' & Ho').
  exists s', t', (rec :: recs). split; [reflexivity|]. split; [exact Ht|].
  split; [congruence|]. rewrite Ho', Ho, <- app_assoc. reflexivity.
Qed.

(** A reader that never returns [io.EOF] keeps the loop turning. *)
Lemma readLoop_never turns : forall Read n inserted s t,
  tx s = Some t ->
  (forall m, Read m <> None) ->
  turning s (readLoop F turns Read n inserted s).
Proof.
  induction turns as [|turns IH]; intros Read n inserted s t Ht Hread;
    cbn [readLoop].
  - exists s, t, []. cbn [map]. rewrite app_nil_r. repeat split; assumption.
  - destruct (Read n) as [[record [err|]]|] eqn:E;
      [eapply IH; eassumption | | destruct (Hread n E)].
    destruct (List.length record <? 6)%nat; [eapply IH; eassumption|].
    unfold bind.
    destruct (stmt_Exec_open (recordArgs record) s t Ht)
      as (ok & s1 & t1 & -> & Ht1 & Hp1 & Ho1).
    destruct ok; cbn [negb];
      (eapply turning_step; [exact Ht1 | exact Hp1 | exact Ho1 |]);
      eapply IH; eassumption.
Qed.

(** So does a stream longer than the turns allowed. *)
Lemma readLoop_short turns : forall reads broken inserted s t,
  tx s = Some t ->
  (turns <= List.length reads)%nat ->
  turning s (readLoop F turns (reader_Read reads broken) 0 inserted s).
Proof.
  induction turns as [|turns IH]; intros reads broken inserted s t Ht Hle;
    cbn [readLoop].
  - exists s, t, []. cbn [map]. rewrite app_nil_r. repeat split; assumption.
  - destruct reads as [|[record err] reads]; cbn [List.length] in Hle; [lia|].
    change (reader_Read ((record, err) :: reads) broken 0)
      with (Some (record, err)).
    assert (Hle' : (turns <= List.length reads)%nat) by lia.
    assert (Hgo : forall inserted s t,
              tx s = Some t ->
              turning s
                (readLoop F turns
                   (reader_Read ((record, err) :: reads) broken) 1
                   inserted s)).
    { intros i s0 t0 Ht0.
      rewrite (readLoop_ext turns _ (reader_Read reads broken) 1 0)
        by (intros k; apply reader_Read_tl).
      eapply IH; eassumption. }
    destruct err as [e|]; [eapply Hgo; eassumption|].
    destruct (List.length record <? 6)%nat; [eapply Hgo; eassumption|].
    unfold bind.
    destruct (stmt_Exec_open (recordArgs record) s t Ht)
      as (ok & s1 & t1 & -> & Ht1 & Hp1 & Ho1).
    destruct ok; cbn [negb];
      (eapply turning_step; [exact Ht1 | exact Hp1 | exact Ho1 |]);
      eapply Hgo; eassumption.
Qed.

Lemma reader_Read_broken reads err m : reader_Read reads (Some err) m <> None.
Proof. unfold reader_Read. destruct (nth_error reads m); discriminate. Qed.

(** The second half of the handler over a stream that ends. *)
Lemma importRowsIn_ends turns reads s :
  (List.length (tl reads) < turns)%nat ->
  importRowsIn F turns (reader_Read reads None) s
  = match importRows F reads s with
    | (inl a, s') => (inl (Some a), s')
    | (inr a, s') => (inr a, s')
    end.
Proof.
  intros Hlt. unfold importRowsIn, importRows, bind.
  rewrite (readLoop_ext turns _ (reader_Read (tl reads) None) 1 0)
    by (intros k; apply reader_Read_tl).
  rewrite (readLoop_ends _ _ _ _ Hlt).
  destruct (insertLoop F (tl reads) 0 s) as [[n|a] s1]; [|reflexivity].
  destruct (tx_Commit F s1) as [[[|]|a] s2]; cbn [negb];
    [|reflexivity|reflexivity].
  destruct (getInsertResult F n s2) as [[[res|]|a] s3]; reflexivity.
Qed.

(** The second half of the handler while the loop turns. *)
Lemma importRowsIn_turning turns reads broken s t :
  tx s = Some t ->
  broken <> None \/ (turns <= List.length (tl reads))%nat ->
  exists s' t' recs,
    importRowsIn F turns (reader_Read reads broken) s = (inl None, s')
    /\ tx s' = Some t'
    /\ prices (db s') = prices (db s)
    /\ ops s' = (ops s ++ map OpExec recs)%list.
Proof.
  intros Ht H. unfold importRowsIn, bind.
  assert (Hturn : turning s
            (readLoop F turns (reader_Read reads broken) 1 0 s)).
  { destruct H as [H | H].
    - destruct broken as [err|]; [|destruct H; reflexivity].
      eapply readLoop_never; [eassumption|]. apply reader_Read_broken.
    - rewrite (readLoop_ext turns _ (reader_Read (tl reads) broken) 1 0)
        by (intros k; apply reader_Read_tl).
      eapply readLoop_short; eassumption. }
  destruct Hturn as (s' & t' & recs & -> & Ht' & Hp & Ho).
  exists s', t', recs. repeat split; assumption.
Qed.

Lemma postPricesIn_rejects turns r s :
  uploadedCSV r = None ->
  exists resp,
    postPricesIn F turns r s = (inr resp, s)
    /\ postPrices F r s = (inr resp, s).
Proof.
  unfold uploadedCSV, postPricesIn, postPrices, readFileToBytes, http_Error.
  destruct (strings.Contains (ContentType r) "multipart/form-data");
    cbn [negb]; [|intros _; eexists; split; reflexivity].
  destruct (MultipartForm r) as [form|];
    [|intros _; eexists; split; reflexivity].
  destruct (FormFile form "file") as [header|];
    [|intros _; eexists; split; reflexivity].
  destruct (strings.HasSuffix (ToLower (Filename header)) ".zip");
    cbn [negb]; [|intros _; eexists; split; reflexivity].
  destruct (content header) as [buf|];
    [|intros _; eexists; split; reflexivity].
  destruct (zip_NewReader buf) as [files|];
    [|intros _; eexists; split; reflexivity].
  intros ->. eexists; split; reflexivity.
Qed.

Lemma postPricesIn_accepts turns r csvFile :
  uploadedCSV r = Some csvFile ->
  postPricesIn F turns r =
    (ok <- db_BeginTx F ;;
     if negb ok
     then http_Error "Internal Server Error" StatusInternalServerError
     else
     ok <- tx_Prepare F ;;
     if negb ok
     then http_Error "Internal Server Error" StatusInternalServerError
     else
     match Open csvFile with
     | None => http_Error "Internal Server Error" StatusInternalServerError
     | Some f =>
         importRowsIn F turns (reader_Read (csv_NewReader f) (csv_broken f))
     end).
Proof.
  unfold uploadedCSV, postPricesIn, readFileToBytes.
  destruct (strings.Contains (ContentType r) "multipart/form-data");
    [|discriminate].
  destruct (MultipartForm r) as [form|]; [|discriminate].
  destruct (FormFile form "file") as [header|]; [|discriminate].
  destruct (strings.HasSuffix (ToLower (Filename header)) ".zip");
    [|discriminate].
  destruct (content header) as [buf|]; [|discriminate].
  destruct (zip_NewReader buf) as [files|]; [|discriminate].
  intros ->. reflexivity.
Qed.

(** When the handler returns, and with what: before the loop always;
    from the loop when the stream of the entry ends and the turns
    suffice, with the outcome [handlePostPrices] describes. *)
Lemma handlePostPricesIn_accepts turns d r csvFile :
  uploadedCSV r = Some csvFile ->
  handlePostPricesIn F turns d r
  = if BeginTx_fails F then Some (handlePostPrices F d r)
    else if Prepare_fails F then Some (handlePostPrices F d r)
    else
      match Open csvFile with
      | None => Some (handlePostPrices F d r)
      | Some data =>
          match csv_broken data with
          | Some _ => None
          | None =>
              if (List.length (tl (csv_NewReader data)) <? turns)%nat
              then Some (handlePostPrices F d r)
              else None
          end
      end.
Proof.
  intros Hu. unfold handlePostPricesIn, handlePostPrices, run.
  rewrite (postPricesIn_accepts _ _ _ Hu), (postPrices_accepts F _ _ Hu).
  unfold bind at 1 3. unfold db_BeginTx, bind, call. cbn [db tx ops].
  destruct (BeginTx_fails F); [reflexivity|].
  cbn [negb]. unfold tx_Prepare, bind, call, ret. cbn [db tx ops app].
  destruct (Prepare_fails F); [reflexivity|].
  cbn [negb]. unfold openCSVFromZip.
  destruct (Open csvFile) as [data|]; [|reflexivity].
  destruct (csv_broken data) as [err|] eqn:Hb.
  - destruct (importRowsIn_turning turns (csv_NewReader data) (Some err)
                (mkSt d (Some (mkTx [] 0)) [OpBeginTx; OpPrepare])
                (mkTx [] 0) eq_refl)
      as (s' & t' & recs & -> & _); [left; discriminate | reflexivity].
  - destruct (List.length (tl (csv_NewReader data)) <? turns)%nat eqn:Hlt.
    + apply Nat.ltb_lt in Hlt. rewrite (importRowsIn_ends _ _ _ Hlt).
      destruct (importRows F (csv_NewReader data)
                  (mkSt d (Some (mkTx [] 0)) [OpBeginTx; OpPrepare]))
        as [[a|a] s']; reflexivity.
    + apply Nat.ltb_ge in Hlt.
      destruct (importRowsIn_turning turns (csv_NewReader data) None
                  (mkSt d (Some (mkTx [] 0)) [OpBeginTx; OpPrepare])
                  (mkTx [] 0) eq_refl)
        as (s' & t' & recs & -> & _); [right; exact Hlt | reflexivity].
Qed.

Lemma handlePostPricesIn_rejects turns d r :
  uploadedCSV r = None ->
  handlePostPricesIn F turns d r = Some (handlePostPrices F d r).
Proof.
  intros Hu. unfold handlePostPricesIn, handlePostPrices, run.
  destruct (postPricesIn_rejects turns r (mkSt d None []) Hu)
    as (resp & -> & ->).
  reflexivity.
Qed.

(** A handler that has returned has the outcome of [handlePostPrices]. *)
Lemma handlePostPricesIn_returned turns d r o :
  handlePostPricesIn F turns d r = Some o -> o = handlePostPrices F d r.
Proof.
  destruct (uploadedCSV r) as [csvFile|] eqn:Hu.
  - rewrite (handlePostPricesIn_accepts _ _ _ _ Hu).
    destruct (BeginTx_fails F); [congruence|].
    destruct (Prepare_fails F); [congruence|].
    destruct (Open csvFile) as [data|]; [|congruence].
    destruct (csv_broken data); [discriminate|].
    destruct (List.length (tl (csv_NewReader data)) <? turns)%nat;
      [congruence | discriminate].
  - rewrite (handlePostPricesIn_rejects _ _ _ Hu). congruence.
Qed.

(** Past the records of a broken stream the loop turns on the spot. *)
Lemma readLoop_spins err turns : forall n inserted s,
  readLoop F turns (reader_Read [] (Some err)) n inserted s = (inl None, s).
Proof.
  induction turns as [|turns IH]; intros n inserted s; cbn [readLoop];
    [reflexivity|].
  unfold reader_Read. destruct n; cbn [nth_error]; apply IH.
Qed.

(** Over a broken stream the loop does what [insertLoop] does over the
    records, and is still turning. *)
Lemma readLoop_breaks err reads : forall turns inserted s,
  (List.length reads <= turns)%nat ->
  readLoop F turns (reader_Read reads (Some err)) 0 inserted s
  = match insertLoop F reads inserted s with
    | (inl _, s') => (inl None, s')
    | (inr a, s') => (inr a, s')
    end.
Proof.
  induction reads as [|[record e] reads IH]; intros turns inserted s Hle.
  - apply readLoop_spins.
  - destruct turns as [|turns]; cbn [List.length] in Hle; [lia|].
    cbn [readLoop insertLoop].
    change (reader_Read ((record, e) :: reads) (Some err) 0)
      with (Some (record, e)).
    assert (Hle' : (List.length reads <= turns)%nat) by lia.
    assert (Hgo : forall inserted s,
              readLoop F turns
                (reader_Read ((record, e) :: reads) (Some err)) 1 inserted s
              = match insertLoop F reads inserted s with
                | (inl _, s') => (inl None, s')
                | (inr a, s') => (inr a, s')
                end).
    { intros i s0. rewrite <- (IH turns i s0 Hle').
      apply readLoop_ext. intros k. apply reader_Read_tl. }
    destruct e as [e|]; [apply Hgo|].
    destruct (List.length record <? 6)%nat; [apply Hgo|].
    unfold bind.
    destruct (stmt_Exec F (recordArgs record) s) as [[[|]|resp] s'];
      cbn [negb]; [apply Hgo | apply Hgo | reflexivity].
Qed.

(** The state the handler is left turning in, over an entry whose
    stream breaks: every insert of the entry has been made and waits in
    the open transaction. *)
Lemma postPricesIn_stuck turns d r csvFile data err :
  uploadedCSV r = Some csvFile ->
  Open csvFile = Some data ->
  csv_broken data = Some err ->
  BeginTx_fails F = false ->
  Prepare_fails F = false ->
  (List.length (tl (csv_NewReader data)) <= turns)%nat ->
  postPricesIn F turns r (mkSt d None [])
  = (inl None,
     mkSt (mkDB (prices d)
                (last_id d
                 + Z.of_nat
                     (List.length
                        (accepted F 0
                           (attempts (tl (csv_NewReader data)))))))
          (Some (mkTx (numbered (last_id d)
                         (accepted F 0
                            (attempts (tl (csv_NewReader data)))))
                      (List.length (attempts (tl (csv_NewReader data))))))
          ([OpBeginTx; OpPrepare]
             ++ map OpExec (attempts (tl (csv_NewReader data))))%list).
Proof.
  intros Hu Hopen Hbroken Hb Hp Hle.
  rewrite (postPricesIn_accepts _ _ _ Hu).
  unfold bind at 1. unfold db_BeginTx, bind, call. cbn [db tx ops].
  rewrite Hb. cbn [negb]. unfold tx_Prepare, bind, call, ret.
  cbn [db tx ops app]. rewrite Hp. cbn [negb]. rewrite Hopen, Hbroken.
  unfold importRowsIn, bind.
  rewrite (readLoop_ext turns _
             (reader_Read (tl (csv_NewReader data)) (Some err)) 1 0)
    by (intros k; apply reader_Read_tl).
  rewrite (readLoop_breaks _ _ _ _ _ Hle).
  rewrite (insertLoop_run F _ _ _ (mkTx [] 0)) by reflexivity.
  reflexivity.
Qed.

End ReadCalls.

(** ** The archive unpacker *)

Lemma findCSV_first files f :
  findCSV files = Some f <->
  exists before after,
    files = (before ++ f :: after)%list
    /\ isData f = true
    /\ forall g, In g before -> isData g = false.
Proof.
  unfold isData. induction files as [|x files IH]; cbn [findCSV].
  - split; [discriminate|].
    intros (before & after & H & _). destruct before; discriminate.
  - destruct (strings.HasSuffix (Name x) "data.csv") eqn:Hx.
    + split.
      * intros [= <-]. exists [], files. repeat split; [assumption|].
        intros g [].
      * intros (before & after & H & Hf & Hb).
        destruct before as [|y before]; cbn in H; injection H as Hy _;
          [rewrite Hy; reflexivity|].
        subst y. rewrite (Hb x (or_introl eq_refl)) in Hx. discriminate.
    + rewrite IH. split.
      * intros (before & after & -> & Hf & Hb).
        exists (x :: before), after. repeat split; [assumption|].
        intros g [<- | Hg]; [assumption | apply Hb; assumption].
      * intros (before & after & H & Hf & Hb).
        destruct before as [|y before]; cbn in H; injection H as Hy Hfiles.
        -- subst x. rewrite Hf in Hx. discriminate.
        -- exists before, after. repeat split; [assumption..|].
           intros g Hg. apply Hb. right. assumption.
Qed.

Lemma findCSV_none files :
  findCSV files = None <-> forall g, In g files -> isData g = false.
Proof.
  unfold isData. induction files as [|x files IH]; cbn [findCSV].
  - split; [intros _ g [] | reflexivity].
  - destruct (strings.HasSuffix (Name x) "data.csv") eqn:Hx.
    + split; [discriminate|]. intros H.
      rewrite (H x (or_introl eq_refl)) in Hx. discriminate.
    + rewrite IH. split.
      * intros H g [<- | Hg]; [assumption | apply H; assumption].
      * intros H g Hg. apply H. right. assumption.
Qed.

(** ** The aggregator *)




(** The encoder writes the summary it is given, or nothing. *)
Lemma json_Encode_JSON result res :
  json_Encode result = JSON res -> res = result.
Proof.
  unfold json_Encode. destruct (TotalPrice result); [|discriminate..].
  intros [= <-]. reflexivity.
Qed.


(** ** The record parser *)

Lemma Atoi_syntax s :
  snd (strconv.Atoi s) = Some strconv.ErrSyntax -> fst (strconv.Atoi s) = 0.
Proof.
  unfold strconv.Atoi, strconv.ParseInt.
  destruct s as [|c s']; [reflexivity|].
  destruct (strconv.ParseUint (if (c =? "+")%char || (c =? "-")%char then s' else String c s'))
    as [un [[|]|]]; cbn [fst snd].
  - reflexivity.
  - destruct (negb (c =? "-")%char && (strconv.maxInt64 + 1 <=? un));
      [discriminate|].
    destruct ((c =? "-")%char && (strconv.maxInt64 + 1 <? un)); discriminate.
  - destruct (negb (c =? "-")%char && (strconv.maxInt64 + 1 <=? un));
      [discriminate|].
    destruct ((c =? "-")%char && (strconv.maxInt64 + 1 <? un)); discriminate.
Qed.

Lemma Parse_error value :
  snd (time.Parse value) = false -> fst (time.Parse value) = time.zero.
Proof.
  unfold time.Parse.
  destruct (negb (String.length value =? 10)%nat); [reflexivity|].
  destruct (time.digits (substring 0 4 value) 0) as [y|]; [|reflexivity].
  destruct (time.digits (substring 5 2 value) 0) as [m|]; [|reflexivity].
  destruct (time.digits (substring 8 2 value) 0) as [d|]; [|reflexivity].
  match goal with |- context [if ?b then _ else _] => destruct b end;
    [discriminate | reflexivity].
Qed.

(** ** Export, then import *)

(** The columns the import reads in a line the export wrote: the
    product id is taken from the [id] column, the name from the
    [product_id] column and the category from the [name] column. *)
Lemma import_of_exported_line {L : Library} (row : StoredPrice) :
  recordArgs (csvLine row)
  = mkRecord (fst (strconv.Atoi (strconv.Itoa (id row))))
             (strconv.Itoa (product_id row))
             (name row)
             (fst (ParseFloat (Sprintf_2f (price row))))
             (fst (time.Parse (time.Format (create_date row)))).
Proof. reflexivity. Qed.

(** What the export writes, when nothing fails. *)
Lemma scanRows_all {L : Library} (F : Faults) rows :
  (forall row, In row rows -> Scan_fails F row = false) ->
  forall all, scanRows F rows all = Some (all ++ map csvLine rows)%list.
Proof.
  induction rows as [|row rows IH]; intros Hs all; cbn [scanRows map].
  - rewrite app_nil_r. reflexivity.
  - rewrite (Hs row (or_introl eq_refl)).
    rewrite IH by (intros x Hx; apply Hs; right; exact Hx).
    rewrite <- app_assoc. reflexivity.
Qed.

Lemma handleGetPrices_exports {L : Library} (F : Faults) d csvBuf zipBuf :
  Query_fails F = false ->
  (forall row, In row (order_by_id (prices d)) -> Scan_fails F row = false) ->
  RowsErr F = false ->
  csv_WriteAll (csvHeader :: map csvLine (order_by_id (prices d)))
  = Some csvBuf ->
  zip_NewWriter "data.csv" csvBuf = Archive zipBuf ->
  handleGetPrices F d
  = mkOutcome (mkResponse StatusOK (Attachment zipBuf)) d [OpQueryAll].
Proof.
  intros Hq Hs He Hw Hz.
  unfold handleGetPrices, run, getPrices, bind, db_Query, bind, call.
  cbn [db tx ops]. rewrite Hq.
  rewrite (scanRows_all F _ Hs). cbn [app]. rewrite He, Hw, Hz.
  destruct d; reflexivity.
Qed.


(** ** The claims *)

(** C1.  With the executable library and a driver that does not fail,
    exporting the table [one_apple] and importing the archive that comes
    out adds one row, but not with the exported values: its
    product id is the exported identifier 1 (not 7), its name is the
    numeral of the exported product id (not [apple]) and its category is
    the exported name (not [fruit]). *)
Theorem roundtrip_shifts_columns :
  exists zip,
    response (handleGetPrices noFaults one_apple)
    = mkResponse StatusOK (Attachment zip)
    /\ map Name
         (match zip_NewReader zip with Some files => files | None => [] end)
       = ["data.csv"]
    /\ prices (store (handlePostPrices noFaults one_apple
                        (upload "prices.zip" zip)))
       = [ mkStored 1 7 "apple" "fruit" (10 # 1) (time.mkTime 2024 1 1);
           mkStored 2 1 "7" "apple" (10 # 1) (time.mkTime 2024 1 1) ].
Proof.
  eexists. split; [reflexivity|]. split; reflexivity.
Qed.

(** C2.  When an upload is answered with a summary, its [TotalItems] is
    the number of data rows after the header that were read with at
    least 6 columns and whose insert the store accepted, and that many
    rows were added to the table; skipped rows do not count. *)
Theorem totalItems_counts_inserted_rows {L : Library} (F : Faults) d r res :
  response (handlePostPrices F d r) = mkResponse StatusOK (JSON res) ->
  exists csvFile data,
    uploadedCSV r = Some csvFile
    /\ Open csvFile = Some data
    /\ TotalItems res
       = Z.of_nat
           (List.length
              (accepted F 0 (attempts (tl (csv_NewReader data)))))
    /\ Z.of_nat (List.length (prices (store (handlePostPrices F d r))))
       = Z.of_nat (List.length (prices d)) + TotalItems res.
Proof.
  intros Hres.
  destruct (uploadedCSV r) as [csvFile|] eqn:Hu.
  - rewrite (handlePostPrices_accepts F d r csvFile Hu) in *.
    unfold importOutcome, afterImport in *.
    destruct (BeginTx_fails F); [discriminate|].
    destruct (Prepare_fails F); [discriminate|].
    destruct (Open csvFile) as [data|] eqn:Ho; [|discriminate].
    exists csvFile, data.
    destruct (Commit_fails F); [discriminate|].
    destruct (CountQuery_fails F); [discriminate|].
    destruct (SumQuery_fails F); [discriminate|].
    cbn [response] in Hres. injection Hres as Hres.
    apply json_Encode_JSON in Hres. subst res.
    cbn [TotalItems store db prices].
    rewrite length_app, numbered_length, Nat2Z.inj_add.
    repeat split; assumption.
  - destruct (handlePostPrices_rejects F d r Hu) as (_ & _ & [[msg H] | [H _]]);
      rewrite H in Hres; discriminate.
Qed.

Lemma totalItems_counts_inserted_rows_witness :
  exists csvFile data,
    uploadedCSV sample_upload = Some csvFile
    /\ Open csvFile = Some data
    /\ 3 = Z.of_nat
             (List.length
                (accepted noFaults 0 (attempts (tl (csv_NewReader data)))))
    /\ Z.of_nat
         (List.length
            (prices (store (handlePostPrices noFaults emptyDB sample_upload))))
       = Z.of_nat (List.length (prices emptyDB)) + 3.
Proof.
  exact (totalItems_counts_inserted_rows noFaults emptyDB sample_upload
           (mkInsertResult 3 2 (61 # 2)) eq_refl).
Defined.

(** C3.  A record of at least 6 fields that the reader returns without
    error is passed to the store whatever its fields hold: a product id
    that is not an integer numeral gives the product id 0, a price that
    is not a number gives the price 0, a date that does not parse gives
    the zero date, and when the store accepts the insert the row waits
    in the transaction with these values and is counted.  A record the
    reader returns with an error (one whose number of fields is not that
    of the first record) is not converted and not inserted, however many
    fields it has. *)
Theorem lenient_fields_still_inserted {L : Library} (F : Faults)
    record rest inserted s t :
  (6 <= List.length record)%nat ->
  tx s = Some t ->
  Exec_fails F (calls t) (recordArgs record) = false ->
  (snd (strconv.Atoi (nth 0 record "")) = Some strconv.ErrSyntax ->
   productID (recordArgs record) = 0)
  /\ (snd (ParseFloat (nth 4 record "")) = Some strconv.ErrSyntax ->
      rprice (recordArgs record) = 0%Q)
  /\ (snd (time.Parse (nth 5 record "")) = false ->
      rdate (recordArgs record) = time.zero)
  /\ attempts ((record, None) :: rest) = recordArgs record :: attempts rest
  /\ insertLoop F ((record, None) :: rest) inserted s
     = insertLoop F rest (inserted + 1)
         (mkSt (mkDB (prices (db s)) (last_id (db s) + 1))
               (Some (mkTx (pending t
                              ++ [mkStored (last_id (db s) + 1)
                                    (productID (recordArgs record))
                                    (nth 1 record "") (nth 2 record "")
                                    (rprice (recordArgs record))
                                    (rdate (recordArgs record))])%list
                           (S (calls t))))
               (ops s ++ [OpExec (recordArgs record)])%list)
  /\ (forall err,
        attempts ((record, Some err) :: rest) = attempts rest
        /\ insertLoop F ((record, Some err) :: rest) inserted s
           = insertLoop F rest inserted s).
Proof.
  intros Hlen Ht Hf.
  split; [apply Atoi_syntax|]. split; [apply ParseFloat_syntax|].
  split; [apply Parse_error|].
  assert (Hr : reachesStore (record, None) = true).
  { unfold reachesStore; cbn [fst snd]. apply Nat.leb_le. exact Hlen. }
  split; [|split; [|intros err; split; reflexivity]].
  - rewrite attempts_cons. rewrite Hr. reflexivity.
  - cbn [insertLoop].
    assert (Hlt : (List.length record <? 6)%nat = false)
      by (apply Nat.ltb_ge; exact Hlen).
    rewrite Hlt. unfold bind.
    rewrite (stmt_Exec_succeeds F _ _ _ Ht Hf). reflexivity.
Qed.

Lemma lenient_fields_still_inserted_witness :
  productID (recordArgs ["x1"; "plum"; "stone fruit"; "kg"; "cheap"; "yesterday"])
  = 0
  /\ rprice (recordArgs ["x1"; "plum"; "stone fruit"; "kg"; "cheap"; "yesterday"])
     = 0%Q
  /\ rdate (recordArgs ["x1"; "plum"; "stone fruit"; "kg"; "cheap"; "yesterday"])
     = time.zero
  /\ insertLoop noFaults
       [(["x1"; "plum"; "stone fruit"; "kg"; "cheap"; "yesterday"], None)] 0
       (mkSt emptyDB (Some (mkTx [] 0)) [])
     = (inl 1,
        mkSt (mkDB [] 1)
             (Some (mkTx [mkStored 1 0 "plum" "stone fruit" 0%Q time.zero] 1))
             [OpExec (mkRecord 0 "plum" "stone fruit" 0%Q time.zero)]).
Proof.
  destruct (lenient_fields_still_inserted noFaults
              ["x1"; "plum"; "stone fruit"; "kg"; "cheap"; "yesterday"] [] 0
              (mkSt emptyDB (Some (mkTx [] 0)) []) (mkTx [] 0))
    as (Hp & Hq & Hd & _ & Hrun & _).
  - simpl. lia.
  - reflexivity.
  - reflexivity.
  - split; [apply Hp; reflexivity|]. split; [apply Hq; reflexivity|].
    split; [apply Hd; reflexivity|].
    rewrite Hrun. reflexivity.
Defined.

(** A row of at least 6 fields is not always inserted: under a header
    of 6 columns a row of 7 fields comes with the error of the reader,
    and the import drops it before any conversion. *)
Lemma wrong_width_row_is_dropped :
  csv_NewReader
    (lines ["id,name,category,unit,price,date";
            "x1,plum,stone fruit,kg,cheap,yesterday,extra"])
  = [(["id"; "name"; "category"; "unit"; "price"; "date"], None);
     (["x1"; "plum"; "stone fruit"; "kg"; "cheap"; "yesterday"; "extra"],
      Some "wrong number of fields")]
  /\ handlePostPrices noFaults emptyDB
       (upload "prices.zip"
          (Ref.archive
             [("data.csv",
               lines ["id,name,category,unit,price,date";
                      "x1,plum,stone fruit,kg,cheap,yesterday,extra"])]))
     = mkOutcome
         (mkResponse StatusOK (JSON (mkInsertResult 0 0 0%Q)))
         emptyDB [OpBeginTx; OpPrepare; OpCommit; OpQueryCount; OpQuerySum].
Proof. split; vm_compute; reflexivity. Qed.

(** C4.  A data row with fewer than 6 fields is skipped: the import of a
    stream with such a row answers, stores and calls the store exactly
    as the import of the stream without it (the rows after it are still
    processed, and no error is reported for it); and whatever row an
    upload adds to the table comes from a record of at least 6 fields. *)
Theorem short_row_is_skipped {L : Library} (F : Faults)
    header pre record err post :
  (List.length record < 6)%nat ->
  (forall s,
     importRows F (header :: pre ++ (record, err) :: post) s
     = importRows F (header :: pre ++ post) s)
  /\ attempts (pre ++ (record, err) :: post) = attempts (pre ++ post)
  /\ (forall d r row,
        In row (prices (store (handlePostPrices F d r))) ->
        In row (prices d)
        \/ exists csvFile data record',
             uploadedCSV r = Some csvFile
             /\ Open csvFile = Some data
             /\ In (record', None) (tl (csv_NewReader data))
             /\ (6 <= List.length record')%nat
             /\ fields row = recordArgs record').
Proof.
  intros Hlen.
  assert (Hx : reachesStore (record, err) = false).
  { unfold reachesStore; cbn [fst snd]. destruct err; [reflexivity|].
    apply Nat.leb_gt. exact Hlen. }
  split; [|split].
  - intros s. unfold importRows. cbn [tl]. unfold bind.
    rewrite (insertLoop_skips F pre _ post Hx). reflexivity.
  - apply attempts_skips. exact Hx.
  - intros d r row Hin.
    destruct (uploadedCSV r) as [csvFile|] eqn:Hu.
    + rewrite (handlePostPrices_accepts F d r csvFile Hu) in Hin.
      destruct (importOutcome_prices F d csvFile) as [H | (data & Ho & _ & H)];
        rewrite H in Hin; [left; exact Hin|].
      apply in_app_or in Hin. destruct Hin as [Hin|Hin]; [left; exact Hin|].
      right. apply numbered_In, accepted_In, attempts_In in Hin.
      destruct Hin as (record' & Hi & Hl & Hr).
      exists csvFile, data, record'. auto.
    + destruct (handlePostPrices_rejects F d r Hu) as (Hs & _).
      rewrite Hs in Hin. left; exact Hin.
Qed.

Lemma short_row_is_skipped_witness :
  (List.length ["9"; "short"; "row"; "kg"; "2"] < 6)%nat
  /\ attempts
       ([(["7"; "apple"; "fruit"; "kg"; "10.00"; "2024-01-01"], None)]
          ++ (["9"; "short"; "row"; "kg"; "2"], None)
          :: [(["8"; "pear"; "fruit"; "kg"; "20.50"; "2024-01-02"], None)])
     = attempts
         ([(["7"; "apple"; "fruit"; "kg"; "10.00"; "2024-01-01"], None)]
            ++ [(["8"; "pear"; "fruit"; "kg"; "20.50"; "2024-01-02"], None)]).
Proof.
  assert (H : (List.length ["9"; "short"; "row"; "kg"; "2"] < 6)%nat)
    by (simpl; lia).
  split; [exact H|].
  exact (proj1 (proj2 (short_row_is_skipped noFaults
                         (["product_id"], None) _ _ None _ H))).
Defined.

(** C5.  When the commit fails, the table holds exactly the rows it held
    before the upload and the caller gets an error instead of a summary:
    an upload that got as far as the commit is answered with the server
    error, and no aggregation query is made. *)
Theorem commit_failure_rolls_back {L : Library} (F : Faults) d r :
  Commit_fails F = true ->
  prices (store (handlePostPrices F d r)) = prices d
  /\ (forall res, body (response (handlePostPrices F d r)) <> JSON res)
  /\ Status (response (handlePostPrices F d r)) <> StatusOK
  /\ (In OpCommit (trace (handlePostPrices F d r)) ->
      response (handlePostPrices F d r) = InternalServerError
      /\ ~ In OpQueryCount (trace (handlePostPrices F d r))).
Proof.
  intros Hc.
  destruct (uploadedCSV r) as [csvFile|] eqn:Hu.
  - rewrite (handlePostPrices_accepts F d r csvFile Hu).
    unfold importOutcome, afterImport. rewrite Hc.
    destruct (BeginTx_fails F);
      [cbn; repeat split; try discriminate; intuition discriminate|].
    destruct (Prepare_fails F);
      [cbn; repeat split; try discriminate; intuition discriminate|].
    destruct (Open csvFile) as [data|];
      [|cbn; repeat split; try discriminate; intuition discriminate].
    cbn [response store trace db ops prices body Status InternalServerError].
    split; [reflexivity|]. split; [discriminate|]. split; [discriminate|].
    intros _. split; [reflexivity|].
    intros Hin. cbn in Hin. destruct Hin as [Hq|[Hq|Hin]]; try discriminate.
    apply in_app_or in Hin. destruct Hin as [Hin|[Hq|[]]]; [|discriminate].
    apply in_map_iff in Hin. destruct Hin as (x & Hq & _). discriminate.
  - destruct (handlePostPrices_rejects F d r Hu) as (Hs & Ht & Hr).
    rewrite Hs, Ht.
    destruct Hr as [[msg ->] | [-> _]]; cbn;
      (split; [reflexivity|]; split; [discriminate|];
       split; [discriminate|]; intros []).
Qed.

Lemma commit_failure_rolls_back_witness :
  prices (store (handlePostPrices
                   (mkFaults false false (fun _ _ => false) true false false
                             false (fun _ => false) false)
                   emptyDB sample_upload)) = []
  /\ response (handlePostPrices
                 (mkFaults false false (fun _ _ => false) true false false
                           false (fun _ => false) false)
                 emptyDB sample_upload) = InternalServerError.
Proof.
  pose proof (commit_failure_rolls_back
                (mkFaults false false (fun _ _ => false) true false false
                          false (fun _ => false) false)
                emptyDB sample_upload eq_refl) as (Hp & _ & _ & Hr).
  split; [exact Hp|].
  apply Hr. vm_compute. tauto.
Defined.

(** C6.  When the commit has succeeded and one of the two aggregation
    queries fails, the caller gets the server error, and the table holds
    the old rows followed by the rows the upload inserted: the store is
    the one the same run leaves when the queries succeed and the summary
    is returned. *)
Theorem aggregation_failure_keeps_rows {L : Library} (F : Faults) d r :
  Commit_fails F = false ->
  In OpCommit (trace (handlePostPrices F d r)) ->
  CountQuery_fails F = true \/ SumQuery_fails F = true ->
  response (handlePostPrices F d r) = InternalServerError
  /\ (exists csvFile data,
        uploadedCSV r = Some csvFile
        /\ Open csvFile = Some data
        /\ prices (store (handlePostPrices F d r))
           = (prices d
                ++ numbered (last_id d)
                     (accepted F 0 (attempts (tl (csv_NewReader data)))))%list)
  /\ store (handlePostPrices F d r)
     = store (handlePostPrices (queriesOK F) d r)
  /\ Status (response (handlePostPrices (queriesOK F) d r)) = StatusOK.
Proof.
  intros Hc Hin Hq.
  destruct (uploadedCSV r) as [csvFile|] eqn:Hu.
  - rewrite !(handlePostPrices_accepts _ d r csvFile Hu) in *.
    unfold importOutcome, afterImport, queriesOK in *.
    cbn [BeginTx_fails Prepare_fails Exec_fails Commit_fails
         CountQuery_fails SumQuery_fails] in *.
    rewrite Hc in *.
    destruct (BeginTx_fails F); [cbn in Hin; intuition discriminate|].
    destruct (Prepare_fails F); [cbn in Hin; intuition discriminate|].
    destruct (Open csvFile) as [data|] eqn:Ho;
      [|cbn in Hin; intuition discriminate].
    unfold accepted. cbn [Exec_fails].
    destruct (CountQuery_fails F).
    + cbn. split; [reflexivity|]. split; [|split; reflexivity].
      exists csvFile, data. auto.
    + destruct (SumQuery_fails F).
      * cbn. split; [reflexivity|]. split; [|split; reflexivity].
        exists csvFile, data. auto.
      * destruct Hq; discriminate.
  - destruct (handlePostPrices_rejects F d r Hu) as (_ & Ht & _).
    rewrite Ht in Hin. destruct Hin.
Qed.

Lemma aggregation_failure_keeps_rows_witness :
  response (handlePostPrices
              (mkFaults false false (fun _ _ => false) false false true
                        false (fun _ => false) false)
              emptyDB sample_upload) = InternalServerError
  /\ List.length
       (prices (store (handlePostPrices
                         (mkFaults false false (fun _ _ => false) false false
                                   true false (fun _ => false) false)
                         emptyDB sample_upload))) = 3%nat.
Proof.
  pose proof (aggregation_failure_keeps_rows
                (mkFaults false false (fun _ _ => false) false false true
                          false (fun _ => false) false)
                emptyDB sample_upload eq_refl) as H.
  assert (Hin : In OpCommit
                  (trace (handlePostPrices
                            (mkFaults false false (fun _ _ => false) false
                                      false true false (fun _ => false) false)
                            emptyDB sample_upload))).
  { vm_compute. tauto. }
  destruct (H Hin (or_intror eq_refl)) as (Hr & _ & Hs & _).
  split; [exact Hr|]. rewrite Hs. reflexivity.
Defined.

(** C7.  An upload that is not multipart, whose form does not parse or
    has no file part, whose bytes are not an archive, or whose archive
    has no data entry, is answered with the client error; the store is
    left as it was and no call reaches it. *)
Theorem unrecognised_upload_rejected {L : Library} (F : Faults) d r :
  strings.Contains (ContentType r) "multipart/form-data" = false
  \/ MultipartForm r = None
  \/ (exists form,
        MultipartForm r = Some form /\ FormFile form "file" = None)
  \/ (exists form header buf,
        MultipartForm r = Some form
        /\ FormFile form "file" = Some header
        /\ content header = Some buf
        /\ (zip_NewReader buf = None
            \/ exists files,
                 zip_NewReader buf = Some files /\ findCSV files = None)) ->
  Status (response (handlePostPrices F d r)) = StatusBadRequest
  /\ store (handlePostPrices F d r) = d
  /\ trace (handlePostPrices F d r) = [].
Proof.
  intros H. unfold handlePostPrices, run, postPrices, readFileToBytes.
  destruct (strings.Contains (ContentType r) "multipart/form-data");
    cbn [negb]; [|destruct d; repeat split].
  destruct H as [H | [-> | [(form & -> & ->) | (form & header & buf & -> & -> & Hc & H)]]];
    [discriminate | destruct d; repeat split | destruct d; repeat split |].
  destruct (strings.HasSuffix (ToLower (Filename header)) ".zip");
    cbn [negb]; [|destruct d; repeat split].
  rewrite Hc.
  destruct H as [-> | (files & -> & ->)]; destruct d; repeat split.
Qed.

Lemma unrecognised_upload_rejected_witness :
  Status (response (handlePostPrices noFaults emptyDB
                      (upload "prices.zip" (lines ["not an archive"]))))
  = StatusBadRequest
  /\ store (handlePostPrices noFaults emptyDB
              (upload "prices.zip" (lines ["not an archive"]))) = emptyDB
  /\ trace (handlePostPrices noFaults emptyDB
              (upload "prices.zip" (lines ["not an archive"]))) = [].
Proof.
  apply unrecognised_upload_rejected.
  right; right; right.
  exists [("file", mkFileHeader "prices.zip" (Some (lines ["not an archive"])))],
         (mkFileHeader "prices.zip" (Some (lines ["not an archive"]))),
         (lines ["not an archive"]).
  repeat split. left. reflexivity.
Defined.

(** C8.  On an upload that carries an archive, the unpacker returns the
    first entry whose name ends with [data.csv]: an archive whose only
    such entry is named [foo/data.csv] yields that entry, and when the
    driver does not fail the import succeeds on it: the answer has
    status 200, the accepted rows of that entry are added to the table,
    and the body is the summary of them and of the table (or is empty
    when the total is not a finite number); this is the outcome the
    handler returns with when the stream of the entry ends; when no
    entry name ends with [data.csv] the answer is the client error
    [CSV file not found in ZIP] and the store is not touched. *)
Theorem findCSV_first_suffix_match {L : Library} (F : Faults)
    d r form header buf files :
  strings.Contains (ContentType r) "multipart/form-data" = true ->
  MultipartForm r = Some form ->
  FormFile form "file" = Some header ->
  strings.HasSuffix (ToLower (Filename header)) ".zip" = true ->
  content header = Some buf ->
  zip_NewReader buf = Some files ->
  (forall f,
     findCSV files = Some f <->
     exists before after,
       files = (before ++ f :: after)%list
       /\ strings.HasSuffix (Name f) "data.csv" = true
       /\ forall g, In g before ->
                    strings.HasSuffix (Name g) "data.csv" = false)
  /\ (forall before data after,
        files = (before ++ mkFile "foo/data.csv" (Some data) :: after)%list ->
        (forall g, In g (before ++ after) ->
                   strings.HasSuffix (Name g) "data.csv" = false) ->
        findCSV files = Some (mkFile "foo/data.csv" (Some data))
        /\ (BeginTx_fails F = false ->
            Prepare_fails F = false ->
            Commit_fails F = false ->
            CountQuery_fails F = false ->
            SumQuery_fails F = false ->
            Status (response (handlePostPrices F d r)) = StatusOK
            /\ prices (store (handlePostPrices F d r))
               = (prices d
                    ++ numbered (last_id d)
                         (accepted F 0
                            (attempts (tl (csv_NewReader data)))))%list
            /\ body (response (handlePostPrices F d r))
               = json_Encode
                   (mkInsertResult
                      (Z.of_nat
                         (List.length
                            (accepted F 0
                               (attempts (tl (csv_NewReader data))))))
                      (sql_count_distinct
                         (map category
                              (prices (store (handlePostPrices F d r)))))
                      (Scan_float64
                         (sql_COALESCE
                            (sql_SUM
                               (map price
                                    (prices
                                       (store (handlePostPrices F d r)))))
                            0%Q)))
            /\ (csv_broken data = None ->
                exists enough,
                  forall turns,
                    (enough <= turns)%nat ->
                    handlePostPricesIn F turns d r
                    = Some (handlePostPrices F d r))))
  /\ ((forall g, In g files ->
                 strings.HasSuffix (Name g) "data.csv" = false) ->
      findCSV files = None
      /\ handlePostPrices F d r
         = mkOutcome
             (mkResponse StatusBadRequest (Text "CSV file not found in ZIP"))
             d []).
Proof.
  intros Hct Hm Hf Hz Hc Hr.
  assert (Hu : uploadedCSV r = findCSV files).
  { unfold uploadedCSV. rewrite Hct, Hm, Hf, Hz, Hc, Hr. reflexivity. }
  split; [|split].
  - intros f. apply findCSV_first.
  - intros before data after Hfiles Hothers.
    assert (Hfind : findCSV files = Some (mkFile "foo/data.csv" (Some data))).
    { apply findCSV_first. exists before, after.
      split; [assumption|]. split; [reflexivity|].
      intros g Hg. apply Hothers. apply in_or_app. left. assumption. }
    split; [assumption|].
    intros Hb Hp Hco Hq1 Hq2.
    rewrite Hfind in Hu.
    assert (Hret : csv_broken data = None ->
              exists enough,
                forall turns,
                  (enough <= turns)%nat ->
                  handlePostPricesIn F turns d r
                  = Some (handlePostPrices F d r)).
    { intros Hends.
      exists (S (List.length (tl (csv_NewReader data)))). intros turns Hle.
      rewrite (handlePostPricesIn_accepts F _ _ _ _ Hu), Hb, Hp.
      cbn [Open]. rewrite Hends.
      assert (Hlt : (List.length (tl (csv_NewReader data)) <? turns)%nat
                    = true) by (apply Nat.ltb_lt; lia).
      rewrite Hlt. reflexivity. }
    rewrite (handlePostPrices_accepts F d r _ Hu) in *.
    unfold importOutcome, afterImport in *. rewrite Hb, Hp, Hco, Hq1, Hq2 in *.
    cbn [Open response store db prices Status body] in *.
    split; [reflexivity|]. split; [reflexivity|]. split; [reflexivity|].
    exact Hret.
  - intros Hnone.
    assert (Hfind : findCSV files = None) by (apply findCSV_none; assumption).
    split; [assumption|].
    unfold handlePostPrices, run, postPrices, readFileToBytes.
    rewrite Hct, Hm, Hf, Hz, Hc, Hr, Hfind. destruct d; reflexivity.
Qed.

Lemma findCSV_first_suffix_match_witness :
  findCSV [mkFile "README.txt" (Some (lines ["prices"]));
           mkFile "foo/data.csv" (Some sample_csv)]
  = Some (mkFile "foo/data.csv" (Some sample_csv))
  /\ Status (response (handlePostPrices noFaults emptyDB sample_upload))
     = StatusOK
  /\ prices (store (handlePostPrices noFaults emptyDB sample_upload))
     = (prices emptyDB
          ++ numbered (last_id emptyDB)
               (accepted noFaults 0
                  (attempts (tl (csv_NewReader sample_csv)))))%list
  /\ exists enough,
       forall turns,
         (enough <= turns)%nat ->
         handlePostPricesIn noFaults turns emptyDB sample_upload
         = Some (handlePostPrices noFaults emptyDB sample_upload).
Proof.
  pose proof (findCSV_first_suffix_match noFaults emptyDB sample_upload
                _ _ _ _ eq_refl eq_refl eq_refl eq_refl eq_refl eq_refl)
    as (_ & H & _).
  destruct (H [mkFile "README.txt" (Some (lines ["prices"]))] sample_csv []
              eq_refl) as (Hfind & Hok).
  - intros g [<- | []]. reflexivity.
  - split; [exact Hfind|].
    destruct (Hok eq_refl eq_refl eq_refl eq_refl eq_refl)
      as (Hs & Hp & _ & Hret).
    split; [assumption|]. split; [assumption|]. apply Hret. reflexivity.
Defined.




(** C10.  An upload whose file name, in lower case, does not end with
    [.zip] is answered with the client error [File must be a ZIP
    archive], whatever the bytes of the part are (a valid archive
    included): they are not read, the store is left as it was and no call
    reaches it. *)
Theorem filename_gate {L : Library} (F : Faults) d m ct form filename part :
  strings.Contains ct "multipart/form-data" = true ->
  FormFile form "file" = Some (mkFileHeader filename part) ->
  strings.HasSuffix (ToLower filename) ".zip" = false ->
  handlePostPrices F d (mkRequest m ct (Some form))
  = mkOutcome (mkResponse StatusBadRequest (Text "File must be a ZIP archive"))
              d [].
Proof.
  intros Hct Hf Hz. unfold handlePostPrices, run, postPrices.
  cbn [ContentType MultipartForm]. rewrite Hct, Hf. cbn [negb Filename].
  rewrite Hz. destruct d; reflexivity.
Qed.

Lemma filename_gate_witness :
  handlePostPrices noFaults emptyDB
    (upload "prices.csv"
            (Ref.archive [("data.csv", sample_csv)]))
  = mkOutcome (mkResponse StatusBadRequest (Text "File must be a ZIP archive"))
              emptyDB [].
Proof.
  exact (filename_gate noFaults emptyDB "POST"
           "multipart/form-data; boundary=xyz"
           [("file", mkFileHeader "prices.csv"
                       (Some (Ref.archive [("data.csv", sample_csv)])))]
           "prices.csv" (Some (Ref.archive [("data.csv", sample_csv)]))
           eq_refl eq_refl eq_refl).
Defined.

(** ** Further properties of the handlers *)

(** *** The export *)

Lemma insert_by_id_perm row l : Permutation (row :: l) (insert_by_id row l).
Proof.
  induction l as [|r l IH]; cbn [insert_by_id]; [reflexivity|].
  destruct (id row <? id r); [reflexivity|].
  rewrite perm_swap. apply perm_skip. exact IH.
Qed.

Lemma insert_by_id_sorted row l :
  Sorted by_id l -> Sorted by_id (insert_by_id row l).
Proof.
  unfold by_id. induction l as [|r l IH]; intros Hs; cbn [insert_by_id].
  - repeat constructor.
  - destruct (id row <? id r) eqn:E.
    + apply Z.ltb_lt in E. constructor; [assumption|]. constructor. lia.
    + apply Z.ltb_ge in E. inversion Hs as [|? ? Hl Hh]; subst.
      constructor; [apply IH; assumption|].
      destruct l as [|r' l']; cbn [insert_by_id]; [constructor; assumption|].
      destruct (id row <? id r'); constructor; [assumption|].
      inversion Hh; assumption.
Qed.

Lemma order_by_id_perm rows : Permutation rows (order_by_id rows).
Proof.
  unfold order_by_id. rewrite (Permutation_rev rows) at 1.
  induction (rev rows) as [|r l IH]; cbn [fold_right]; [reflexivity|].
  rewrite <- insert_by_id_perm. apply perm_skip. exact IH.
Qed.

Lemma order_by_id_sorted rows : Sorted by_id (order_by_id rows).
Proof.
  unfold order_by_id. induction (rev rows) as [|r l IH]; cbn [fold_right].
  - constructor.
  - apply insert_by_id_sorted. exact IH.
Qed.

Lemma scanRows_some {L : Library} (F : Faults) rows : forall all out,
  scanRows F rows all = Some out ->
  (forall row, In row rows -> Scan_fails F row = false)
  /\ out = (all ++ map csvLine rows)%list.
Proof.
  induction rows as [|row rows IH]; intros all out; cbn [scanRows map].
  - intros [= <-]. rewrite app_nil_r. split; [intros row []|reflexivity].
  - destruct (Scan_fails F row) eqn:E; [discriminate|].
    intros H. apply IH in H. destruct H as [Hs ->].
    rewrite <- app_assoc. split; [|reflexivity].
    intros x [<- | Hx]; [assumption | apply Hs; assumption].
Qed.

(** What [handleGetPrices] answers, case by case. *)
Lemma handleGetPrices_cases {L : Library} (F : Faults) d :
  store (handleGetPrices F d) = d
  /\ trace (handleGetPrices F d) = [OpQueryAll]
  /\ (response (handleGetPrices F d) = InternalServerError
      /\ (Query_fails F = true
          \/ (exists row, In row (prices d) /\ Scan_fails F row = true)
          \/ RowsErr F = true
          \/ csv_WriteAll (csvHeader :: map csvLine (order_by_id (prices d)))
             = None
          \/ exists csvBuf,
               csv_WriteAll (csvHeader :: map csvLine (order_by_id (prices d)))
               = Some csvBuf
               /\ forall zipBuf, zip_NewWriter "data.csv" csvBuf <> Archive zipBuf)
      \/ exists csvBuf zipBuf,
           response (handleGetPrices F d)
           = mkResponse StatusOK (Attachment zipBuf)
           /\ Query_fails F = false
           /\ (forall row, In row (prices d) -> Scan_fails F row = false)
           /\ RowsErr F = false
           /\ csv_WriteAll (csvHeader :: map csvLine (order_by_id (prices d)))
              = Some csvBuf
           /\ zip_NewWriter "data.csv" csvBuf = Archive zipBuf).
Proof.
  unfold handleGetPrices, run, getPrices, bind, db_Query, bind, call.
  cbn [db tx ops app].
  destruct (Query_fails F) eqn:Hq;
    [destruct d; repeat split; left; split; [reflexivity | auto]|].
  destruct (scanRows F (order_by_id (prices d)) [csvHeader]) as [all|] eqn:Hs.
  - apply scanRows_some in Hs. destruct Hs as [Hs ->]. cbn [app].
    assert (Hs' : forall row, In row (prices d) -> Scan_fails F row = false).
    { intros row Hin. apply Hs.
      apply (Permutation_in _ (order_by_id_perm (prices d))). exact Hin. }
    destruct (RowsErr F) eqn:He;
      [destruct d; repeat split; left; split; [reflexivity | auto]|].
    destruct (csv_WriteAll (csvHeader :: map csvLine (order_by_id (prices d))))
      as [csvBuf|] eqn:Hw;
      [|destruct d; repeat split; left; split; [reflexivity | auto 6]].
    destruct (zip_NewWriter "data.csv" csvBuf) as [| | |zipBuf] eqn:Hz;
      try (destruct d; repeat split; left; split; [reflexivity|];
           right; right; right; right; exists csvBuf;
           split; [reflexivity | intros zipBuf; rewrite Hz; discriminate]).
    destruct d; repeat split. right. exists csvBuf, zipBuf. auto 7.
  - destruct d; repeat split. left. split; [reflexivity|].
    right; left.
    assert (Hex : exists row,
               In row (order_by_id (prices0)) /\ Scan_fails F row = true).
    { clear Hq. cbn [prices] in Hs. revert Hs.
      generalize [csvHeader]. induction (order_by_id prices0) as [|row rows IH];
        intros all; cbn [scanRows]; [discriminate|].
      destruct (Scan_fails F row) eqn:E.
      - intros _. exists row. split; [left; reflexivity | assumption].
      - intros H. destruct (IH _ H) as (x & Hx & Hf).
        exists x. split; [right; assumption | assumption]. }
    destruct Hex as (row & Hin & Hf). exists row. split; [|assumption].
    cbn [prices].
    apply (Permutation_in _ (Permutation_sym (order_by_id_perm prices0))).
    exact Hin.
Qed.

(** X1.  The export reads and never writes: whatever fails, the store is
    left as it was and the one call that reaches it is the query. *)
Theorem export_reads_only {L : Library} (F : Faults) d :
  store (handleGetPrices F d) = d
  /\ trace (handleGetPrices F d) = [OpQueryAll].
Proof.
  destruct (handleGetPrices_cases F d) as (Hs & Ht & _). auto.
Qed.

(** X2.  The export answers with the archive exactly when the query, the
    scan of every row, the row iteration, the CSV writer and the archive
    writer all succeed; in every other case the answer is the server
    error. *)
Theorem export_succeeds_iff {L : Library} (F : Faults) d :
  (forall zipBuf,
     response (handleGetPrices F d) = mkResponse StatusOK (Attachment zipBuf)
     <-> Query_fails F = false
         /\ (forall row, In row (prices d) -> Scan_fails F row = false)
         /\ RowsErr F = false
         /\ exists csvBuf,
              csv_WriteAll (csvHeader :: map csvLine (order_by_id (prices d)))
              = Some csvBuf
              /\ zip_NewWriter "data.csv" csvBuf = Archive zipBuf)
  /\ (response (handleGetPrices F d) = InternalServerError
      \/ exists zipBuf,
           response (handleGetPrices F d)
           = mkResponse StatusOK (Attachment zipBuf)).
Proof.
  destruct (handleGetPrices_cases F d)
    as (_ & _ & [[Hr Hc] | (csvBuf & zipBuf & Hr & Hq & Hs & He & Hw & Hz)]).
  - split; [|left; exact Hr].
    intros zipBuf. rewrite Hr. split; [discriminate|].
    intros (Hq & Hs & He & csvBuf & Hw & Hz). exfalso.
    destruct Hc as [H | [(row & Hin & H) | [H | [H | (c & H & Hn)]]]];
      [ congruence
      | rewrite (Hs row Hin) in H; discriminate
      | congruence
      | congruence
      | rewrite Hw in H; injection H as <-; exact (Hn zipBuf Hz) ].
  - split; [|right; exists zipBuf; exact Hr].
    intros z. rewrite Hr. split.
    + intros [= <-]. repeat split; try assumption. exists csvBuf. auto.
    + intros (_ & _ & _ & c & Hw' & Hz').
      rewrite Hw in Hw'. injection Hw' as <-. rewrite Hz in Hz'.
      injection Hz' as <-. reflexivity.
Qed.

(** X3.  A successful export writes the header line and then one line
    for each row of the table, each row once, in ascending order of
    identifier, into the single entry [data.csv]. *)
Theorem export_lists_rows_by_id {L : Library} (F : Faults) d zipBuf :
  response (handleGetPrices F d) = mkResponse StatusOK (Attachment zipBuf) ->
  exists rows csvBuf,
    Permutation (prices d) rows
    /\ Sorted by_id rows
    /\ csv_WriteAll (csvHeader :: map csvLine rows) = Some csvBuf
    /\ zip_NewWriter "data.csv" csvBuf = Archive zipBuf.
Proof.
  intros Hr.
  destruct (handleGetPrices_cases F d)
    as (_ & _ & [[Hr' _] | (csvBuf & z & Hr' & _ & _ & _ & Hw & Hz)]);
    rewrite Hr' in Hr; [discriminate|].
  injection Hr as <-.
  exists (order_by_id (prices d)), csvBuf.
  split; [apply order_by_id_perm|]. split; [apply order_by_id_sorted|]. auto.
Qed.

Lemma export_lists_rows_by_id_witness :
  exists rows csvBuf,
    Permutation (prices pear_then_apple) rows
    /\ Sorted by_id rows
    /\ csv_WriteAll (csvHeader :: map csvLine rows) = Some csvBuf
    /\ zip_NewWriter "data.csv" csvBuf
       = Archive
           (Ref.archive
              [("data.csv",
                lines ["id,product_id,name,category,price,create_date";
                       "1,7,apple,fruit,10.00,2024-01-01";
                       "2,8,pear,fruit,20.50,2024-01-02"])]).
Proof.
  exact (export_lists_rows_by_id noFaults pear_then_apple _ eq_refl).
Defined.

(** X4.  Only a POST can change the store: a request with any other
    method leaves it as it was, and a method that is neither POST nor GET
    is answered [Method Not Allowed] without a call to the store. *)
Theorem only_post_writes {L : Library} (F : Faults) d r :
  Method r <> "POST" ->
  store (serve F d r) = d
  /\ (Method r <> "GET" ->
      serve F d r
      = mkOutcome
          (mkResponse StatusMethodNotAllowed (Text "Method Not Allowed"))
          d []).
Proof.
  intros Hp. unfold serve.
  destruct (String.eqb (Method r) "POST") eqn:E;
    [apply String.eqb_eq in E; contradiction|].
  destruct (String.eqb (Method r) "GET") eqn:G.
  - split; [apply handleGetPrices_cases|].
    apply String.eqb_eq in G. intros Hg. contradiction.
  - split; reflexivity.
Qed.

Lemma only_post_writes_witness :
  store (serve noFaults pear_then_apple (mkRequest "DELETE" "" None)) = pear_then_apple
  /\ serve noFaults pear_then_apple (mkRequest "DELETE" "" None)
     = mkOutcome
         (mkResponse StatusMethodNotAllowed (Text "Method Not Allowed"))
         pear_then_apple [].
Proof.
  assert (Hp : Method (mkRequest "DELETE" "" None) <> "POST") by discriminate.
  destruct (only_post_writes noFaults pear_then_apple _ Hp) as [Hs Hm].
  split; [exact Hs|]. apply Hm. discriminate.
Defined.

(** *** The import *)

Lemma In_map_OpExec o l :
  In o (map OpExec l) -> exists rec, o = OpExec rec.
Proof.
  rewrite in_map_iff. intros (rec & <- & _). exists rec. reflexivity.
Qed.

Lemma numbered_above l : forall i,
  Forall (fun row => i < id row <= i + Z.of_nat (List.length l))
         (numbered i l).
Proof.
  induction l as [|rec l IH]; intros i; cbn [numbered List.length].
  - constructor.
  - constructor; [cbn [id]; lia|].
    eapply Forall_impl; [|apply IH]. cbn beta. intros row. lia.
Qed.

Lemma numbered_sorted l : forall i,
  StronglySorted Z.lt (map id (numbered i l)).
Proof.
  induction l as [|rec l IH]; intros i; cbn [numbered map id].
  - constructor.
  - constructor; [apply IH|].
    rewrite Forall_map. eapply Forall_impl; [|apply numbered_above].
    cbn beta. intros row. lia.
Qed.

Lemma StronglySorted_app (l1 l2 : list Z) :
  StronglySorted Z.lt l1 ->
  StronglySorted Z.lt l2 ->
  (forall a b, In a l1 -> In b l2 -> a < b) ->
  StronglySorted Z.lt (l1 ++ l2).
Proof.
  intros H1 H2 H. induction H1 as [|a l1 Hs IH Hf]; cbn [app]; [assumption|].
  constructor.
  - apply IH. intros x y Hx Hy. apply H; [right|]; assumption.
  - apply Forall_app. split; [assumption|].
    apply Forall_forall. intros y Hy. apply H; [left; reflexivity | assumption].
Qed.

Lemma StronglySorted_NoDup (l : list Z) : StronglySorted Z.lt l -> NoDup l.
Proof.
  induction 1 as [|a l Hs IH Hf]; constructor; [|assumption].
  intros Hin. rewrite Forall_forall in Hf. specialize (Hf a Hin). lia.
Qed.

(** The store an upload that passes the checks leaves: the one it found,
    or the one it found with the serial counter advanced, or that with
    the accepted rows appended. *)
Lemma importOutcome_store {L : Library} (F : Faults) d csvFile :
  store (importOutcome F d csvFile) = d
  \/ exists acc,
       store (importOutcome F d csvFile)
       = mkDB (prices d) (last_id d + Z.of_nat (List.length acc))
       \/ store (importOutcome F d csvFile)
          = mkDB (prices d ++ numbered (last_id d) acc)
                 (last_id d + Z.of_nat (List.length acc)).
Proof.
  unfold importOutcome, afterImport.
  destruct (BeginTx_fails F); [left; reflexivity|].
  destruct (Prepare_fails F); [left; reflexivity|].
  destruct (Open csvFile) as [data|]; [|left; reflexivity].
  right. exists (accepted F 0 (attempts (tl (csv_NewReader data)))).
  destruct (Commit_fails F); [left; reflexivity|]. right.
  destruct (CountQuery_fails F); [reflexivity|].
  destruct (SumQuery_fails F); reflexivity.
Qed.

(** X5.  The import keeps the store in order and only ever appends: the
    rows it found stay where they were, the rows it adds take identifiers
    above every identifier handed out before, the serial counter does not
    go back, and no two rows share an identifier. *)
Theorem import_keeps_store_in_order {L : Library} (F : Faults) d r :
  inOrder d ->
  inOrder (store (handlePostPrices F d r))
  /\ last_id d <= last_id (store (handlePostPrices F d r))
  /\ (exists new,
        prices (store (handlePostPrices F d r)) = (prices d ++ new)%list
        /\ Forall (fun row => last_id d < id row) new)
  /\ NoDup (map id (prices (store (handlePostPrices F d r)))).
Proof.
  intros [Hs Hb].
  assert (Hgoal :
    forall d', d' = d
      \/ (exists acc,
            d' = mkDB (prices d) (last_id d + Z.of_nat (List.length acc))
            \/ d' = mkDB (prices d ++ numbered (last_id d) acc)
                         (last_id d + Z.of_nat (List.length acc))) ->
    inOrder d' /\ last_id d <= last_id d'
    /\ (exists new, prices d' = (prices d ++ new)%list
                    /\ Forall (fun row => last_id d < id row) new)
    /\ NoDup (map id (prices d'))).
  { intros d' [-> | (acc & [-> | ->])]; unfold inOrder.
    - split; [split; assumption|]. split; [lia|].
      split; [exists []; rewrite app_nil_r; split; [reflexivity|constructor]|].
      apply StronglySorted_NoDup. assumption.
    - cbn [prices last_id]. split; [split; [assumption|]|].
      + eapply Forall_impl; [|exact Hb]. cbn beta. intros i. lia.
      + split; [lia|].
        split; [exists []; rewrite app_nil_r; split; [reflexivity|constructor]|].
        apply StronglySorted_NoDup. assumption.
    - cbn [prices last_id].
      assert (Hab := numbered_above acc (last_id d)).
      assert (Hso : StronglySorted Z.lt
                      (map id (prices d ++ numbered (last_id d) acc))).
      { rewrite map_app. apply StronglySorted_app;
          [assumption | apply numbered_sorted|].
        intros a b Ha Hin. rewrite Forall_forall in Hb. specialize (Hb a Ha).
        apply in_map_iff in Hin. destruct Hin as (row & <- & Hrow).
        rewrite Forall_forall in Hab. specialize (Hab row Hrow).
        cbn beta in *. lia. }
      split; [split; [assumption|]|].
      + rewrite map_app. apply Forall_app. split.
        * eapply Forall_impl; [|exact Hb]. cbn beta. intros i. lia.
        * rewrite Forall_map. eapply Forall_impl; [|exact Hab].
          cbn beta. intros row. lia.
      + split; [lia|]. split.
        * exists (numbered (last_id d) acc). split; [reflexivity|].
          eapply Forall_impl; [|exact Hab]. cbn beta. intros row. lia.
        * apply StronglySorted_NoDup. assumption. }
  apply Hgoal.
  destruct (uploadedCSV r) as [csvFile|] eqn:Hu.
  - rewrite (handlePostPrices_accepts F d r csvFile Hu).
    apply importOutcome_store.
  - left. apply (handlePostPrices_rejects F d r Hu).
Qed.

Lemma import_keeps_store_in_order_witness :
  inOrder (store (handlePostPrices noFaults one_apple sample_upload))
  /\ NoDup (map id
              (prices (store (handlePostPrices noFaults one_apple
                                sample_upload)))).
Proof.
  assert (H : inOrder one_apple).
  { split; cbn.
    - repeat constructor.
    - repeat constructor. lia. }
  destruct (import_keeps_store_in_order noFaults one_apple sample_upload H)
    as (Ho & _ & _ & Hn).
  split; assumption.
Defined.

Ltac in_trace :=
  repeat match goal with
         | H : In _ (_ ++ _) |- _ => apply in_app_or in H; destruct H as [H|H]
         | H : In _ (map OpExec _) |- _ =>
             apply In_map_OpExec in H; destruct H as [? H]; discriminate H
         | H : In _ (_ :: _) |- _ => destruct H as [H|H]; [try discriminate H|]
         | H : In _ [] |- _ => destruct H
         end.

(** In the outcome of an upload whose entry ends, a transaction that
    was opened is ended, once. *)
Lemma ended_once {L : Library} (F : Faults) d r :
  (BeginTx_fails F = false ->
   In OpBeginTx (trace (handlePostPrices F d r)) ->
   (In OpCommit (trace (handlePostPrices F d r))
    /\ ~ In OpRollback (trace (handlePostPrices F d r)))
   \/ (In OpRollback (trace (handlePostPrices F d r))
       /\ ~ In OpCommit (trace (handlePostPrices F d r))))
  /\ (BeginTx_fails F = true ->
      ~ In OpCommit (trace (handlePostPrices F d r))
      /\ ~ In OpRollback (trace (handlePostPrices F d r)))
  /\ (forall rec,
        In (OpExec rec) (trace (handlePostPrices F d r)) ->
        In OpCommit (trace (handlePostPrices F d r))).
Proof.
  destruct (uploadedCSV r) as [csvFile|] eqn:Hu.
  - rewrite (handlePostPrices_accepts F d r csvFile Hu).
    unfold importOutcome, afterImport.
    destruct (BeginTx_fails F).
    { cbn [trace]. split; [discriminate|].
      split; [intros _; split; intros Hin; in_trace|].
      intros rec Hin; in_trace. }
    destruct (Prepare_fails F).
    { cbn [trace]. split; [|split; [discriminate|intros rec Hin; in_trace]].
      intros _ _. right. split; [cbn; tauto | intros Hin; in_trace]. }
    destruct (Open csvFile) as [data|].
    2:{ cbn [trace]. split; [|split; [discriminate|intros rec Hin; in_trace]].
        intros _ _. right. split; [cbn; tauto | intros Hin; in_trace]. }
    assert (Hc : forall tail,
               In OpCommit
                 (([OpBeginTx; OpPrepare]
                     ++ map OpExec (attempts (tl (csv_NewReader data)))
                     ++ [OpCommit]) ++ tail)).
    { intros tail. apply in_or_app. left. apply in_or_app. right.
      apply in_or_app. right. left. reflexivity. }
    destruct (Commit_fails F); cbn [trace ops];
      [split; [|split; [discriminate|]]|].
    + intros _ _. left. split; [rewrite <- (app_nil_r (_ ++ _)); apply Hc|].
      intros Hin; in_trace.
    + intros rec _. rewrite <- (app_nil_r (_ ++ _)). apply Hc.
    + destruct (CountQuery_fails F); [|destruct (SumQuery_fails F)];
        cbn [trace ops];
        (split; [|split; [discriminate | intros rec _; apply Hc]];
         intros _ _; left; split; [apply Hc | intros Hin; in_trace]).
  - destruct (handlePostPrices_rejects F d r Hu) as (_ & -> & _).
    split; [intros _ []|]. split; [intros _; split; intros []|].
    intros rec [].
Qed.

(** X6.  Whenever the import returns, a transaction that was opened is
    ended, once: the outcome is the one [handlePostPrices] describes,
    its trace has a commit or a rollback and never both when a
    transaction was opened, and rows are only sent to the store in a
    run that goes on to commit.  The import returns when the stream of
    the entry ends with [io.EOF], given turns enough.  When the stream
    breaks with an error that stays, it never returns: after any number
    of turns the loop is still turning, the transaction is open, the
    table is as it was, and the calls made since the statement was
    prepared are inserts, with no commit and no rollback; once the
    records of the entry are read, every insert they ask for has been
    made and the accepted rows wait in the transaction, for ever. *)
Theorem transaction_always_ended {L : Library} (F : Faults) d r :
  (forall turns o,
     handlePostPricesIn F turns d r = Some o ->
     o = handlePostPrices F d r
     /\ (BeginTx_fails F = false ->
         In OpBeginTx (trace o) ->
         (In OpCommit (trace o) /\ ~ In OpRollback (trace o))
         \/ (In OpRollback (trace o) /\ ~ In OpCommit (trace o)))
     /\ (BeginTx_fails F = true ->
         ~ In OpCommit (trace o) /\ ~ In OpRollback (trace o))
     /\ (forall rec, In (OpExec rec) (trace o) -> In OpCommit (trace o)))
  /\ ((forall csvFile data,
         uploadedCSV r = Some csvFile ->
         Open csvFile = Some data ->
         csv_broken data = None) ->
      exists enough,
        forall turns,
          (enough <= turns)%nat ->
          handlePostPricesIn F turns d r = Some (handlePostPrices F d r))
  /\ (forall csvFile data err,
        uploadedCSV r = Some csvFile ->
        Open csvFile = Some data ->
        csv_broken data = Some err ->
        BeginTx_fails F = false ->
        Prepare_fails F = false ->
        forall turns,
          handlePostPricesIn F turns d r = None
          /\ exists s' t' recs,
               postPricesIn F turns r (mkSt d None []) = (inl None, s')
               /\ tx s' = Some t'
               /\ prices (db s') = prices d
               /\ ops s' = ([OpBeginTx; OpPrepare] ++ map OpExec recs)%list)
  /\ (forall csvFile data err,
        uploadedCSV r = Some csvFile ->
        Open csvFile = Some data ->
        csv_broken data = Some err ->
        BeginTx_fails F = false ->
        Prepare_fails F = false ->
        forall turns,
          (List.length (tl (csv_NewReader data)) <= turns)%nat ->
          postPricesIn F turns r (mkSt d None [])
          = (inl None,
             mkSt (mkDB (prices d)
                        (last_id d
                         + Z.of_nat
                             (List.length
                                (accepted F 0
                                   (attempts (tl (csv_NewReader data)))))))
                  (Some (mkTx (numbered (last_id d)
                                 (accepted F 0
                                    (attempts (tl (csv_NewReader data)))))
                              (List.length
                                 (attempts (tl (csv_NewReader data))))))
                  ([OpBeginTx; OpPrepare]
                     ++ map OpExec
                          (attempts (tl (csv_NewReader data))))%list)).
Proof.
  split; [|split; [|split;
    [|intros csvFile data err Hu Hopen Hbroken Hb Hp turns Hle;
      eapply postPricesIn_stuck; eassumption]]].
  - intros turns o Ho. apply handlePostPricesIn_returned in Ho. subst o.
    split; [reflexivity|]. apply ended_once.
  - intros Hends. destruct (uploadedCSV r) as [csvFile|] eqn:Hu.
    + destruct (Open csvFile) as [data|] eqn:Hopen.
      * exists (S (List.length (tl (csv_NewReader data)))). intros turns Hle.
        rewrite (handlePostPricesIn_accepts F _ _ _ _ Hu), Hopen.
        rewrite (Hends csvFile data eq_refl Hopen).
        assert (Hlt : (List.length (tl (csv_NewReader data)) <? turns)%nat
                      = true) by (apply Nat.ltb_lt; lia).
        rewrite Hlt.
        destruct (BeginTx_fails F), (Prepare_fails F); reflexivity.
      * exists 0%nat. intros turns _.
        rewrite (handlePostPricesIn_accepts F _ _ _ _ Hu), Hopen.
        destruct (BeginTx_fails F), (Prepare_fails F); reflexivity.
    + exists 0%nat. intros turns _. apply handlePostPricesIn_rejects, Hu.
  - intros csvFile data err Hu Hopen Hbroken Hb Hp turns. split.
    + rewrite (handlePostPricesIn_accepts F _ _ _ _ Hu), Hb, Hp, Hopen, Hbroken.
      reflexivity.
    + rewrite (postPricesIn_accepts F _ _ _ Hu).
      unfold bind at 1. unfold db_BeginTx, bind, call. cbn [db tx ops].
      rewrite Hb. cbn [negb]. unfold tx_Prepare, bind, call, ret.
      cbn [db tx ops app]. rewrite Hp. cbn [negb]. rewrite Hopen, Hbroken.
      destruct (importRowsIn_turning F turns (csv_NewReader data) (Some err)
                  (mkSt d (Some (mkTx [] 0)) [OpBeginTx; OpPrepare])
                  (mkTx [] 0) eq_refl)
        as (s' & t' & recs & -> & Ht & Hpr & Hops); [left; discriminate|].
      exists s', t', recs. repeat split; assumption.
Qed.

(** The sample upload returns; the same upload read from a damaged
    archive is still in the loop after a thousand turns. *)
Lemma transaction_always_ended_witness :
  (exists enough,
     forall turns,
       (enough <= turns)%nat ->
       handlePostPricesIn noFaults turns emptyDB sample_upload
       = Some (handlePostPrices noFaults emptyDB sample_upload))
  /\ handlePostPricesIn (L := Ref.damaged) noFaults 1000 emptyDB sample_upload
     = None.
Proof.
  split.
  - apply (proj1 (proj2 (transaction_always_ended noFaults emptyDB
                           sample_upload))).
    intros csvFile data _ _. reflexivity.
  - apply (proj1 (proj2 (proj2 (transaction_always_ended (L := Ref.damaged)
                                  noFaults emptyDB sample_upload)))
             (mkFile "foo/data.csv" (Some sample_csv)) sample_csv
             "zip: checksum error");
      reflexivity.
Defined.

(** X7.  When the transaction cannot be opened, the statement cannot be
    prepared or the entry cannot be opened, the upload is answered with
    the server error before any record is processed: the store is left
    as it was, and no insert and no commit reach it. *)
Theorem failed_setup_inserts_nothing {L : Library} (F : Faults)
    d r csvFile :
  uploadedCSV r = Some csvFile ->
  BeginTx_fails F = true \/ Prepare_fails F = true \/ Open csvFile = None ->
  response (handlePostPrices F d r) = InternalServerError
  /\ store (handlePostPrices F d r) = d
  /\ (forall rec, ~ In (OpExec rec) (trace (handlePostPrices F d r)))
  /\ ~ In OpCommit (trace (handlePostPrices F d r)).
Proof.
  intros Hu H. rewrite (handlePostPrices_accepts F d r csvFile Hu).
  unfold importOutcome.
  destruct (BeginTx_fails F).
  { cbn [trace response store]. split; [reflexivity|]. split; [reflexivity|].
    split; [intros rec|]; intros Hin; in_trace. }
  destruct (Prepare_fails F).
  { cbn [trace response store]. split; [reflexivity|]. split; [reflexivity|].
    split; [intros rec|]; intros Hin; in_trace. }
  destruct H as [H | [H | H]]; try discriminate.
  rewrite H. cbn [trace response store]. split; [reflexivity|].
  split; [reflexivity|]. split; [intros rec|]; intros Hin; in_trace.
Qed.

Lemma failed_setup_inserts_nothing_witness :
  response (handlePostPrices
              (mkFaults false true (fun _ _ => false) false false false
                        false (fun _ => false) false)
              one_apple sample_upload) = InternalServerError
  /\ store (handlePostPrices
              (mkFaults false true (fun _ _ => false) false false false
                        false (fun _ => false) false)
              one_apple sample_upload) = one_apple.
Proof.
  assert (Hu : uploadedCSV sample_upload
               = Some (mkFile "foo/data.csv" (Some sample_csv)))
    by (vm_compute; reflexivity).
  destruct (failed_setup_inserts_nothing
              (mkFaults false true (fun _ _ => false) false false false
                        false (fun _ => false) false)
              one_apple sample_upload _ Hu (or_intror (or_introl eq_refl)))
    as (Hr & Hs & _).
  split; assumption.
Defined.





Lemma accepted_length {L : Library} (F : Faults) atts : forall k,
  (List.length (accepted F k atts) <= List.length atts)%nat.
Proof.
  induction atts as [|rec atts IH]; intros k; [apply Nat.le_refl|].
  rewrite accepted_cons. specialize (IH (S k)).
  destruct (Exec_fails F k rec); cbn [List.length]; lia.
Qed.

Lemma accepted_all {L : Library} (F : Faults) atts : forall k,
  (forall n rec, Exec_fails F n rec = false) ->
  accepted F k atts = atts.
Proof.
  induction atts as [|rec atts IH]; intros k Hf; [reflexivity|].
  rewrite accepted_cons, Hf, IH by assumption. reflexivity.
Qed.

Lemma attempts_length {L : Library} reads :
  (List.length (attempts reads) <= List.length reads)%nat.
Proof.
  unfold attempts. rewrite length_map. apply filter_length_le.
Qed.

Lemma attempts_all {L : Library} reads :
  (forall x, In x reads -> reachesStore x = true) ->
  List.length (attempts reads) = List.length reads.
Proof.
  intros H. unfold attempts. rewrite length_map.
  induction reads as [|x reads IH]; [reflexivity|].
  cbn [filter]. rewrite (H x (or_introl eq_refl)). cbn [List.length].
  f_equal. apply IH. intros y Hy. apply H. right. exact Hy.
Qed.

(** What an upload answered with a summary has gone through. *)
Lemma summary_run {L : Library} (F : Faults) d r res :
  response (handlePostPrices F d r) = mkResponse StatusOK (JSON res) ->
  exists csvFile data,
    uploadedCSV r = Some csvFile
    /\ Open csvFile = Some data
    /\ store (handlePostPrices F d r)
       = mkDB (prices d
                 ++ numbered (last_id d)
                      (accepted F 0 (attempts (tl (csv_NewReader data)))))
              (last_id d
               + Z.of_nat
                   (List.length
                      (accepted F 0 (attempts (tl (csv_NewReader data))))))
    /\ res
       = mkInsertResult
           (Z.of_nat
              (List.length
                 (accepted F 0 (attempts (tl (csv_NewReader data))))))
           (sql_count_distinct
              (map category (prices (store (handlePostPrices F d r)))))
           (Scan_float64
              (sql_COALESCE
                 (sql_SUM
                    (map price (prices (store (handlePostPrices F d r)))))
                 0%Q)).
Proof.
  intros Hres.
  destruct (uploadedCSV r) as [csvFile|] eqn:Hu.
  - rewrite (handlePostPrices_accepts F d r csvFile Hu) in *.
    unfold importOutcome, afterImport in *.
    destruct (BeginTx_fails F); [discriminate|].
    destruct (Prepare_fails F); [discriminate|].
    destruct (Open csvFile) as [data|] eqn:Ho; [|discriminate].
    exists csvFile, data.
    destruct (Commit_fails F); [discriminate|].
    destruct (CountQuery_fails F); [discriminate|].
    destruct (SumQuery_fails F); [discriminate|].
    cbn [response] in Hres. injection Hres as Hres.
    apply json_Encode_JSON in Hres. subst res. cbn [store db prices].
    repeat split; assumption.
  - destruct (handlePostPrices_rejects F d r Hu) as (_ & _ & [[msg H] | [H _]]);
      rewrite H in Hres; discriminate.
Qed.



(** X10.  The count returned is never negative and never more than the
    number of records after the header; it is that number when every
    such record was read without error with at least 6 columns and the
    store refuses no insert. *)
Theorem totalItems_bounds {L : Library} (F : Faults) d r res :
  response (handlePostPrices F d r) = mkResponse StatusOK (JSON res) ->
  exists csvFile data,
    uploadedCSV r = Some csvFile
    /\ Open csvFile = Some data
    /\ 0 <= TotalItems res
       <= Z.of_nat (List.length (tl (csv_NewReader data)))
    /\ ((forall x, In x (tl (csv_NewReader data)) -> reachesStore x = true) ->
        (forall n rec, Exec_fails F n rec = false) ->
        TotalItems res = Z.of_nat (List.length (tl (csv_NewReader data)))).
Proof.
  intros Hres.
  destruct (summary_run F d r res Hres) as (csvFile & data & Hu & Ho & _ & ->).
  exists csvFile, data. split; [assumption|]. split; [assumption|].
  cbn [TotalItems].
  pose proof (accepted_length F (attempts (tl (csv_NewReader data))) 0).
  pose proof (attempts_length (tl (csv_NewReader data))).
  split; [lia|].
  intros Hall Hf. rewrite accepted_all by assumption.
  rewrite attempts_all by assumption. reflexivity.
Qed.

Lemma totalItems_bounds_witness :
  exists csvFile data,
    uploadedCSV sample_upload = Some csvFile
    /\ Open csvFile = Some data
    /\ 0 <= 3 <= Z.of_nat (List.length (tl (csv_NewReader data))).
Proof.
  assert (Hres : response (handlePostPrices noFaults emptyDB sample_upload)
                 = mkResponse StatusOK (JSON (mkInsertResult 3 2 (61 # 2))))
    by (vm_compute; reflexivity).
  destruct (totalItems_bounds noFaults emptyDB sample_upload _ Hres)
    as (csvFile & data & Hu & Ho & Hb & _).
  exists csvFile, data. auto.
Defined.

(** X11.  The aggregator reads and never writes: it leaves the store and
    the transaction as they were, returns a summary exactly when both
    queries succeed, and does not make the second query when the first
    has failed. *)
Theorem aggregator_reads_only {L : Library} (F : Faults) inserted s :
  exists o s',
    getInsertResult F inserted s = (inl o, s')
    /\ db s' = db s
    /\ tx s' = tx s
    /\ (o = None <-> CountQuery_fails F = true \/ SumQuery_fails F = true)
    /\ (CountQuery_fails F = true -> ops s' = (ops s ++ [OpQueryCount])%list)
    /\ (CountQuery_fails F = false ->
        ops s' = (ops s ++ [OpQueryCount; OpQuerySum])%list).
Proof.
  unfold getInsertResult, bind, query_categories, query_price, bind, call, ret.
  cbn [db tx ops].
  destruct (CountQuery_fails F).
  - eexists _, _. split; [reflexivity|]. cbn [db tx ops].
    repeat split; auto; discriminate.
  - cbn [db tx ops]. destruct (SumQuery_fails F).
    + eexists _, _. split; [reflexivity|]. cbn [db tx ops].
      rewrite <- app_assoc. repeat split; auto; discriminate.
    + eexists _, _. split; [reflexivity|]. cbn [db tx ops].
      rewrite <- app_assoc. repeat split; auto; try discriminate.
      intros [H|H]; discriminate.
Qed.



(** A price spelled [NaN] is stored as such, the total is not a number,
    and the answer is a 200 with nothing in it. *)
Lemma nan_total_empty_body :
  response
    (handlePostPrices noFaults emptyDB
       (upload "prices.zip"
          (Ref.archive
             [("data.csv",
               lines ["id,name,category,unit,price,date";
                      "7,apple,fruit,kg,NaN,2024-01-01"])])))
  = mkResponse StatusOK Empty.
Proof. vm_compute. reflexivity. Qed.

(** *** Numerals and dates written by the export, read by the import *)

Lemma digit_range c d : strconv.digit c = Some d -> 0 <= d <= 9.
Proof.
  unfold strconv.digit.
  destruct ((48 <=? Z.of_nat (nat_of_ascii c))
            && (Z.of_nat (nat_of_ascii c) <=? 57)) eqn:E; [|discriminate].
  intros [= <-]. apply andb_prop in E. destruct E as [E1 E2].
  apply Z.leb_le in E1. apply Z.leb_le in E2. lia.
Qed.

Lemma digits_ge s : forall acc v,
  0 <= acc -> time.digits s acc = Some v -> acc <= v.
Proof.
  induction s as [|c s IH]; intros acc v Ha; cbn [time.digits].
  - intros [= <-]. lia.
  - destruct (strconv.digit c) as [d|] eqn:E; [|discriminate].
    apply digit_range in E. intros H. apply IH in H; lia.
Qed.

(** Below the bound of [uint64], the digit loop of [ParseUint] reads a
    numeral as its value. *)
Lemma ParseUint_loop_digits s : forall acc v,
  0 <= acc ->
  time.digits s acc = Some v ->
  v <= strconv.maxUint64 ->
  strconv.ParseUint_loop s acc = (v, None).
Proof.
  induction s as [|c s IH]; intros acc v Ha; cbn [time.digits strconv.ParseUint_loop].
  - intros [= <-] _. reflexivity.
  - destruct (strconv.digit c) as [d|] eqn:E; [|discriminate].
    apply digit_range in E. intros H Hv.
    assert (Hge : acc * 10 + d <= v) by (apply (digits_ge s); [lia | exact H]).
    unfold strconv.maxUint64 in *.
    change (2 ^ 64 - 1) with 18446744073709551615 in *.
    change (18446744073709551615 / 10 + 1) with 1844674407370955162.
    destruct (1844674407370955162 <=? acc) eqn:E1;
      [apply Z.leb_le in E1; lia|].
    cbv zeta.
    destruct (18446744073709551615 <? acc * 10 + d) eqn:E2;
      [apply Z.ltb_lt in E2; lia|].
    apply IH; [lia | exact H | exact Hv].
Qed.

Lemma digits_string_of_uint d : forall acc,
  time.digits (NilEmpty.string_of_uint d) acc
  = Some (Z.of_N (DecimalPos.Unsigned.of_lu (Decimal.rev d))
          + acc * 10 ^ Z.of_N (DecimalPos.Unsigned.usize d)).
Proof.
  induction d; intros acc;
    cbn [NilEmpty.string_of_uint time.digits];
    [ cbn; f_equal; lia | .. ];
    (match goal with
     | |- context [strconv.digit ?c] =>
         let v := eval vm_compute in (strconv.digit c) in
         change (strconv.digit c) with v
     end;
     cbv beta iota; rewrite IHd; f_equal;
     match goal with
     | |- context [Decimal.rev (?D d)] =>
         change (Decimal.rev (D d)) with (Decimal.revapp d (D Decimal.Nil));
         rewrite DecimalPos.Unsigned.of_lu_revapp;
         let v := eval vm_compute in (DecimalPos.Unsigned.of_lu (D Decimal.Nil)) in
         change (DecimalPos.Unsigned.of_lu (D Decimal.Nil)) with v
     end;
     cbn [DecimalPos.Unsigned.usize];
     rewrite N2Z.inj_add, N2Z.inj_mul, N2Z.inj_pow, N2Z.inj_succ;
     rewrite Z.pow_succ_r by apply N2Z.is_nonneg;
     cbn [Z.of_N]; ring).
Qed.

Lemma digits_to_uint p :
  time.digits (NilEmpty.string_of_uint (Pos.to_uint p)) 0 = Some (Z.pos p).
Proof.
  rewrite digits_string_of_uint. f_equal.
  rewrite <- DecimalPos.Unsigned.of_uint_alt, DecimalPos.Unsigned.of_to. cbn. lia.
Qed.

Lemma string_of_to_uint p :
  NilZero.string_of_uint (Pos.to_uint p)
  = NilEmpty.string_of_uint (Pos.to_uint p)
  /\ exists c s, NilEmpty.string_of_uint (Pos.to_uint p) = String c s
                 /\ exists d, strconv.digit c = Some d.
Proof.
  pose proof (DecimalPos.Unsigned.to_uint_nonnil p) as Hn.
  destruct (Pos.to_uint p); [contradiction|..];
    (split; [reflexivity|]; eexists _, _; split; [reflexivity|];
     eexists; reflexivity).
Qed.

Lemma digit_not_sign c d :
  strconv.digit c = Some d ->
  Ascii.eqb c "+" = false /\ Ascii.eqb c "-" = false.
Proof.
  intros H. split.
  - destruct (Ascii.eqb c "+") eqn:E; [|reflexivity].
    apply Ascii.eqb_eq in E. subst c. discriminate H.
  - destruct (Ascii.eqb c "-") eqn:E; [|reflexivity].
    apply Ascii.eqb_eq in E. subst c. discriminate H.
Qed.

Lemma ParseUint_to_uint p :
  Z.pos p <= strconv.maxUint64 ->
  strconv.ParseUint (NilEmpty.string_of_uint (Pos.to_uint p))
  = (Z.pos p, None).
Proof.
  intros Hb.
  destruct (string_of_to_uint p) as (_ & c & s & Hs & _).
  unfold strconv.ParseUint. rewrite Hs. rewrite <- Hs.
  apply ParseUint_loop_digits; [lia | apply digits_to_uint | exact Hb].
Qed.

(** [Atoi] undoes [Itoa] on every 64-bit integer. *)
Lemma Atoi_Itoa (i : Z) :
  strconv.minInt64 <= i <= strconv.maxInt64 ->
  strconv.Atoi (strconv.Itoa i) = (i, None).
Proof.
  unfold strconv.minInt64, strconv.maxInt64. intros Hi.
  unfold strconv.Atoi, strconv.Itoa.
  destruct i as [|p|p]; [reflexivity|..]; cbn [Z.to_int NilZero.string_of_int].
  - destruct (string_of_to_uint p) as (-> & c & s & Hs & d & Hd).
    assert (Hu := ParseUint_to_uint p). rewrite Hs in *.
    destruct (digit_not_sign c d Hd) as [Hplus Hminus].
    unfold strconv.ParseInt. rewrite Hplus, Hminus. cbn [orb negb andb].
    rewrite Hu by (unfold strconv.maxUint64; lia).
    unfold strconv.maxInt64.
    destruct (2 ^ 63 - 1 + 1 <=? Z.pos p) eqn:E;
      [apply Z.leb_le in E; lia | reflexivity].
  - destruct (string_of_to_uint p) as (-> & _).
    unfold strconv.ParseInt.
    change (Ascii.eqb "-" "-") with true.
    change (Ascii.eqb "-" "+") with false. cbn [orb negb andb].
    rewrite ParseUint_to_uint by (unfold strconv.maxUint64; lia).
    unfold strconv.maxInt64.
    destruct (2 ^ 63 - 1 + 1 <? Z.pos p) eqn:E;
      [apply Z.ltb_lt in E; lia | reflexivity].
Qed.

(** The numeral of a positive number has no leading zero. *)
Lemma to_uint_no_leading_zero p d' : Pos.to_uint p <> Decimal.D0 d'.
Proof.
  intros E.
  assert (Hn : Decimal.unorm (Pos.to_uint p) = Pos.to_uint p).
  { rewrite <- (DecimalPos.Unsigned.to_of (Pos.to_uint p)).
    rewrite DecimalPos.Unsigned.of_to. reflexivity. }
  rewrite E in Hn. rewrite DecimalFacts.unorm_D0 in Hn.
  unfold Decimal.unorm in Hn.
  destruct (Decimal.nzhead d') eqn:Hz;
    [ apply (DecimalPos.Unsigned.to_uint_nonzero p); rewrite E;
      symmetry; exact Hn
    | exact (DecimalFacts.nzhead_nonzero _ _ Hz)
    | discriminate Hn .. ].
Qed.

Lemma length_string_of_uint d :
  Z.of_nat (String.length (NilEmpty.string_of_uint d))
  = Z.of_N (DecimalPos.Unsigned.usize d).
Proof.
  induction d;
    cbn [NilEmpty.string_of_uint String.length DecimalPos.Unsigned.usize];
    [reflexivity | ..];
    rewrite Nat2Z.inj_succ, N2Z.inj_succ, IHd; reflexivity.
Qed.

(** A numeral without a leading zero is at least the power of ten of
    its length less one. *)
Lemma of_lu_rev_lower d :
  d <> Decimal.Nil ->
  (forall d', d <> Decimal.D0 d') ->
  10 ^ (Z.of_N (DecimalPos.Unsigned.usize d) - 1)
  <= Z.of_N (DecimalPos.Unsigned.of_lu (Decimal.rev d)).
Proof.
  intros Hn Hz.
  destruct d; [contradiction | exfalso; apply (Hz d); reflexivity | ..];
    (match goal with
     | |- context [Decimal.rev (?D d)] =>
         change (Decimal.rev (D d)) with (Decimal.revapp d (D Decimal.Nil));
         rewrite DecimalPos.Unsigned.of_lu_revapp;
         let v := eval vm_compute in (DecimalPos.Unsigned.of_lu (D Decimal.Nil)) in
         change (DecimalPos.Unsigned.of_lu (D Decimal.Nil)) with v
     end;
     cbn [DecimalPos.Unsigned.usize];
     rewrite N2Z.inj_add, N2Z.inj_mul, N2Z.inj_pow, N2Z.inj_succ;
     cbn [Z.of_N];
     replace (Z.succ (Z.of_N (DecimalPos.Unsigned.usize d)) - 1)
       with (Z.of_N (DecimalPos.Unsigned.usize d)) by lia;
     pose proof (N2Z.is_nonneg (DecimalPos.Unsigned.of_lu (Decimal.rev d)));
     pose proof (Z.pow_pos_nonneg 10 (Z.of_N (DecimalPos.Unsigned.usize d))
                   ltac:(lia) (N2Z.is_nonneg _));
     lia).
Qed.

Lemma digits_Itoa x : 0 <= x -> time.digits (strconv.Itoa x) 0 = Some x.
Proof.
  intros Hx. unfold strconv.Itoa.
  destruct x as [|p|p]; [reflexivity | | lia].
  cbn [Z.to_int NilZero.string_of_int].
  destruct (string_of_to_uint p) as (-> & _). apply digits_to_uint.
Qed.

Lemma Itoa_length x (w : nat) :
  (1 <= w)%nat ->
  0 <= x < 10 ^ Z.of_nat w ->
  (String.length (strconv.Itoa x) <= w)%nat.
Proof.
  intros Hw Hx. unfold strconv.Itoa.
  destruct x as [|p|p]; [exact Hw | | lia].
  cbn [Z.to_int NilZero.string_of_int].
  destruct (string_of_to_uint p) as (-> & _).
  pose proof (length_string_of_uint (Pos.to_uint p)) as Hlen.
  pose proof (of_lu_rev_lower (Pos.to_uint p)
                (DecimalPos.Unsigned.to_uint_nonnil p)
                (to_uint_no_leading_zero p)) as Hl.
  rewrite <- DecimalPos.Unsigned.of_uint_alt, DecimalPos.Unsigned.of_to in Hl.
  cbn [Z.of_N] in Hl.
  assert (Hlt : Z.of_N (DecimalPos.Unsigned.usize (Pos.to_uint p)) - 1
                < Z.of_nat w).
  { apply (Z.pow_lt_mono_r_iff 10); lia. }
  lia.
Qed.

Lemma digits_zeros n s : time.digits (time.zeros n ++ s) 0 = time.digits s 0.
Proof.
  induction n as [|n IH]; [reflexivity|].
  cbn [time.zeros String.append time.digits].
  change (strconv.digit "0") with (Some 0). exact IH.
Qed.

Lemma length_append (s1 s2 : string) :
  String.length (s1 ++ s2) = (String.length s1 + String.length s2)%nat.
Proof.
  induction s1 as [|c s1 IH]; cbn [String.append String.length];
    [reflexivity | rewrite IH; reflexivity].
Qed.

Lemma length_zeros n : String.length (time.zeros n) = n.
Proof.
  induction n as [|n IH]; cbn [time.zeros String.length];
    [reflexivity | rewrite IH; reflexivity].
Qed.

(** A number written on [width] digits reads back as itself. *)
Lemma appendInt_digits x (width : nat) :
  (1 <= width)%nat ->
  0 <= x < 10 ^ Z.of_nat width ->
  String.length (time.appendInt x width) = width
  /\ time.digits (time.appendInt x width) 0 = Some x.
Proof.
  intros Hw Hx. unfold time.appendInt.
  replace (x <? 0) with false by (symmetry; apply Z.ltb_ge; lia).
  rewrite Z.abs_eq by lia. cbn [String.append].
  pose proof (Itoa_length x width Hw Hx) as Hl.
  split.
  - rewrite length_append, length_zeros. lia.
  - rewrite digits_zeros. apply digits_Itoa. lia.
Qed.

Lemma Parse_parts Y M D y m d :
  String.length Y = 4%nat ->
  String.length M = 2%nat ->
  String.length D = 2%nat ->
  time.digits Y 0 = Some y ->
  time.digits M 0 = Some m ->
  time.digits D 0 = Some d ->
  1 <= m <= 12 ->
  1 <= d <= time.daysIn m y ->
  time.Parse (Y ++ "-" ++ M ++ "-" ++ D) = (time.mkTime y m d, true).
Proof.
  intros HY HM HD Hy Hm Hd Hmr Hdr.
  destruct Y as [|y1 [|y2 [|y3 [|y4 [|]]]]]; try discriminate HY.
  destruct M as [|m1 [|m2 [|]]]; try discriminate HM.
  destruct D as [|d1 [|d2 [|]]]; try discriminate HD.
  unfold time.Parse.
  cbn [String.append String.length Nat.eqb negb substring].
  rewrite Hy, Hm, Hd.
  cbn [String.eqb Ascii.eqb Bool.eqb andb].
  replace (1 <=? m) with true by (symmetry; apply Z.leb_le; lia).
  replace (m <=? 12) with true by (symmetry; apply Z.leb_le; lia).
  replace (1 <=? d) with true by (symmetry; apply Z.leb_le; lia).
  replace (d <=? time.daysIn m y) with true by (symmetry; apply Z.leb_le; lia).
  reflexivity.
Qed.

(** [time.Parse] with the layout [2006-01-02] undoes [Format] on every
    calendar date of the years 0 to 9999. *)
Lemma Parse_Format (t : time.Time) :
  0 <= time.Year t <= 9999 ->
  1 <= time.Month t <= 12 ->
  1 <= time.Day t <= time.daysIn (time.Month t) (time.Year t) ->
  time.Parse (time.Format t) = (t, true).
Proof.
  destruct t as [y m d]. cbn [time.Year time.Month time.Day].
  intros Hy Hm Hd.
  assert (Hd31 : time.daysIn m y <= 31).
  { unfold time.daysIn. destruct (m =? 2); [destruct (time.isLeap y); lia|].
    destruct ((m =? 4) || (m =? 6) || (m =? 9) || (m =? 11)); lia. }
  destruct (appendInt_digits y 4) as [HlY HdY];
    [lia | change (10 ^ Z.of_nat 4) with 10000; lia |].
  destruct (appendInt_digits m 2) as [HlM HdM];
    [lia | change (10 ^ Z.of_nat 2) with 100; lia |].
  destruct (appendInt_digits d 2) as [HlD HdD];
    [lia | change (10 ^ Z.of_nat 2) with 100; lia |].
  unfold time.Format. cbn [time.Year time.Month time.Day].
  apply Parse_parts; assumption.
Qed.

(** X13.  What the import reads in a line the export wrote, for a row
    whose identifier is a 64-bit integer and whose date is a calendar
    date of the years 0 to 9999: the line has 6 fields; the identifier
    comes back as the product id and the date as the date, both without
    loss; the product id comes back as the name, in decimal, and the
    name as the category. *)
Theorem exported_line_read_back {L : Library} (row : StoredPrice) :
  strconv.minInt64 <= id row <= strconv.maxInt64 ->
  0 <= time.Year (create_date row) <= 9999 ->
  1 <= time.Month (create_date row) <= 12 ->
  1 <= time.Day (create_date row)
    <= time.daysIn (time.Month (create_date row))
                   (time.Year (create_date row)) ->
  List.length (csvLine row) = 6%nat
  /\ recordArgs (csvLine row)
     = mkRecord (id row)
                (strconv.Itoa (product_id row))
                (name row)
                (fst (ParseFloat (Sprintf_2f (price row))))
                (create_date row).
Proof.
  intros Hi Hy Hm Hd. split; [reflexivity|].
  unfold recordArgs, csvLine. cbn [nth].
  rewrite (Atoi_Itoa _ Hi), (Parse_Format _ Hy Hm Hd). reflexivity.
Qed.

Lemma exported_line_read_back_witness :
  recordArgs
    (csvLine (mkStored 1 7 "apple" "fruit" (10 # 1) (time.mkTime 2024 2 29)))
  = mkRecord 1 "7" "apple" (10 # 1) (time.mkTime 2024 2 29).
Proof.
  destruct (exported_line_read_back
              (mkStored 1 7 "apple" "fruit" (10 # 1) (time.mkTime 2024 2 29)))
    as [_ H];
    [cbn; unfold strconv.minInt64, strconv.maxInt64; lia
    | cbn; lia | cbn; lia | cbn; lia |].
  rewrite H. reflexivity.
Defined.



(** *** The order of the inserts *)

Lemma execs_app t1 t2 : execs (t1 ++ t2) = (execs t1 ++ execs t2)%list.
Proof.
  induction t1 as [|o t1 IH]; [reflexivity|].
  destruct o; cbn [app execs]; rewrite IH; reflexivity.
Qed.

Lemma execs_map_OpExec l : execs (map OpExec l) = l.
Proof.
  induction l as [|rec l IH]; cbn [map execs]; [|rewrite IH]; reflexivity.
Qed.

Lemma Subseq_refl {A : Type} (l : list A) : Subseq l l.
Proof. induction l; constructor; assumption. Qed.

Lemma Subseq_filter {A : Type} (f : A -> bool) l : Subseq (filter f l) l.
Proof.
  induction l as [|x l IH]; cbn [filter]; [constructor|].
  destruct (f x); constructor; assumption.
Qed.

Lemma Subseq_map {A B : Type} (f : A -> B) l l' :
  Subseq l l' -> Subseq (map f l) (map f l').
Proof. induction 1; cbn [map]; constructor; assumption. Qed.

Lemma Subseq_trans {A : Type} (l1 l2 l3 : list A) :
  Subseq l1 l2 -> Subseq l2 l3 -> Subseq l1 l3.
Proof.
  intros H12 H23. revert l1 H12.
  induction H23 as [|x l2 l3 H IH|x l2 l3 H IH]; intros l1 H12.
  - exact H12.
  - constructor. apply IH. exact H12.
  - inversion H12; subst; constructor; apply IH; assumption.
Qed.

Lemma accepted_Subseq {L : Library} (F : Faults) atts : forall k,
  Subseq (accepted F k atts) atts.
Proof.
  induction atts as [|rec atts IH]; intros k; [constructor|].
  rewrite accepted_cons. destruct (Exec_fails F k rec); constructor; apply IH.
Qed.

(** X15.  A refused insert does not stop the loop: once the transaction
    is open, the statement prepared and the entry opened, the store is
    asked to insert every record after the header that was read without
    error with at least 6 columns, once each and in the order of the
    file, whatever inserts are refused and whatever fails afterwards. *)
Theorem every_good_row_is_tried {L : Library} (F : Faults)
    d r csvFile data :
  uploadedCSV r = Some csvFile ->
  Open csvFile = Some data ->
  BeginTx_fails F = false ->
  Prepare_fails F = false ->
  execs (trace (handlePostPrices F d r))
  = attempts (tl (csv_NewReader data)).
Proof.
  intros Hu Ho Hb Hp.
  rewrite (handlePostPrices_accepts F d r csvFile Hu).
  unfold importOutcome, afterImport. rewrite Hb, Hp, Ho.
  destruct (Commit_fails F);
    [|destruct (CountQuery_fails F); [|destruct (SumQuery_fails F)]];
    cbn [trace ops]; rewrite ?execs_app, execs_map_OpExec;
    cbn [execs app]; rewrite ?app_nil_r; reflexivity.
Qed.

Lemma every_good_row_is_tried_witness :
  execs (trace (handlePostPrices
                  (mkFaults false false (fun n _ => Nat.eqb n 0) false false
                            false false (fun _ => false) false)
                  emptyDB sample_upload))
  = attempts (tl (csv_NewReader sample_csv)).
Proof.
  assert (Hu : uploadedCSV sample_upload
               = Some (mkFile "foo/data.csv" (Some sample_csv)))
    by (vm_compute; reflexivity).
  exact (every_good_row_is_tried
           (mkFaults false false (fun n _ => Nat.eqb n 0) false false
                     false false (fun _ => false) false)
           emptyDB sample_upload _ sample_csv Hu eq_refl eq_refl eq_refl).
Defined.

(** X16.  The rows an upload adds stand in the table in the order of
    the file: their fields are the typed records of the data rows, some
    left out (skipped or refused) and the order kept. *)
Theorem added_rows_follow_the_file {L : Library} (F : Faults) d r res :
  response (handlePostPrices F d r) = mkResponse StatusOK (JSON res) ->
  exists csvFile data new,
    uploadedCSV r = Some csvFile
    /\ Open csvFile = Some data
    /\ prices (store (handlePostPrices F d r)) = (prices d ++ new)%list
    /\ Subseq (map fields new)
              (map (fun x => recordArgs (fst x)) (tl (csv_NewReader data))).
Proof.
  intros Hres.
  destruct (summary_run F d r res Hres) as (csvFile & data & Hu & Ho & Hs & _).
  exists csvFile, data. eexists. split; [assumption|]. split; [assumption|].
  rewrite Hs. cbn [prices]. split; [reflexivity|].
  rewrite numbered_fields.
  eapply Subseq_trans; [apply accepted_Subseq|].
  unfold attempts. apply Subseq_map, Subseq_filter.
Qed.

Lemma added_rows_follow_the_file_witness :
  exists csvFile data new,
    uploadedCSV sample_upload = Some csvFile
    /\ Open csvFile = Some data
    /\ prices (store (handlePostPrices noFaults emptyDB sample_upload))
       = (prices emptyDB ++ new)%list
    /\ Subseq (map fields new)
              (map (fun x => recordArgs (fst x)) (tl (csv_NewReader data))).
Proof.
  assert (Hres : response (handlePostPrices noFaults emptyDB sample_upload)
                 = mkResponse StatusOK (JSON (mkInsertResult 3 2 (61 # 2))))
    by (vm_compute; reflexivity).
  exact (added_rows_follow_the_file noFaults emptyDB sample_upload _ Hres).
Defined.
